(** * flake8-return: the return-pattern visitor of [flake8_return/visitors.py]

    A shallow embedding of [ReturnVisitor] and its four mixins, followed by
    the properties stated about it.  Python's [ast] nodes become two
    inductive types, the visitor object becomes a record threaded through
    every method, and a raised [IndexError] becomes a constructor of the
    result type. *)

From Stdlib Require Import ZArith List Bool Lia.
From stdpp Require Import base option list strings gmap fin_maps sorting.

Open Scope Z_scope.

(** Induction over trees whose children sit in lists. *)
Scheme All for list.

(** ** Syntax trees *)

(** The literals [None], [True], [False]; every other constant is [COther]. *)
Inductive constant := CNone | CBool (b : bool) | COther.

(** Expressions.  Only the node classes the visitor distinguishes are kept
    apart: [ast.Name], constants, [ast.Tuple]; any other expression is
    [OtherExpr] with its child expressions in field order. *)
Inductive expr :=
| Name (id : string) (lineno col_offset : Z)
| Constant (value : constant) (lineno col_offset : Z)
| Tuple (elts : list expr) (lineno col_offset : Z)
| OtherExpr (children : list expr) (lineno col_offset : Z).

(** An [ast.Return] node; [value] is [None] for a bare [return]. *)
Record return_node := ReturnNode {
  value : option expr;
  ret_lineno : Z;
  ret_col_offset : Z
}.

(** Statements (and [ast.ExceptHandler], which [ast.Try] holds in its
    [handlers] field).  The lists follow the field order that
    [NodeVisitor.generic_visit] iterates.  [args] of a function and [items]
    of a [with] are the expressions below the [arguments] and [withitem]
    nodes, in visiting order.  [OtherStmt] stands for any other statement:
    its expression children, then its statement children, then trailing
    expression children (as in [ClassDef]: bases, body, decorators).
    [end_lineno] is absent when the parser does not provide it. *)
Inductive stmt :=
| FunctionDef (is_async : bool) (args : list expr) (body : list stmt)
    (decorator_list : list expr) (returns_ann : option expr)
    (lineno col_offset : Z)
| Return (r : return_node)
| Assign (targets : list expr) (rhs : expr) (lineno col_offset : Z)
| If (test : expr) (body orelse : list stmt) (lineno col_offset : Z)
| For (is_async : bool) (target iter : expr) (body orelse : list stmt)
    (lineno col_offset : Z) (end_lineno : option Z)
| While (test : expr) (body orelse : list stmt)
    (lineno col_offset : Z) (end_lineno : option Z)
| Try (body handlers orelse finalbody : list stmt)
    (lineno col_offset : Z) (end_lineno : option Z)
| ExceptHandler (type : option expr) (body : list stmt) (lineno col_offset : Z)
| With (is_async : bool) (items : list expr) (body : list stmt)
    (lineno col_offset : Z)
| Assert (test : expr) (msg : option expr) (lineno col_offset : Z)
| Raise (exc cause : option expr) (lineno col_offset : Z)
| OtherStmt (exprs : list expr) (body : list stmt) (exprs' : list expr)
    (lineno col_offset : Z).

Definition expr_lineno (e : expr) : Z :=
  match e with
  | Name _ l _ | Constant _ l _ | Tuple _ l _ | OtherExpr _ l _ => l
  end.

Definition expr_col_offset (e : expr) : Z :=
  match e with
  | Name _ _ c | Constant _ _ c | Tuple _ _ c | OtherExpr _ _ c => c
  end.

Definition stmt_lineno (s : stmt) : Z :=
  match s with
  | FunctionDef _ _ _ _ _ l _ | Assign _ _ l _ | If _ _ _ l _
  | For _ _ _ _ _ l _ _ | While _ _ _ l _ _ | Try _ _ _ _ l _ _
  | ExceptHandler _ _ l _ | With _ _ _ l _ | Assert _ _ l _ | Raise _ _ l _
  | OtherStmt _ _ _ l _ => l
  | Return r => ret_lineno r
  end.

Definition stmt_col_offset (s : stmt) : Z :=
  match s with
  | FunctionDef _ _ _ _ _ _ c | Assign _ _ _ c | If _ _ _ _ c
  | For _ _ _ _ _ _ c _ | While _ _ _ _ c _ | Try _ _ _ _ _ c _
  | ExceptHandler _ _ _ c | With _ _ _ _ c | Assert _ _ _ c | Raise _ _ _ c
  | OtherStmt _ _ _ _ c => c
  | Return r => ret_col_offset r
  end.

(** ** Findings *)

(** The four error classes imported from [.errors]. *)
Inductive error_class :=
| UnnecessaryReturnNone | ImplicitReturnValue | ImplicitReturn
| UnnecessaryAssign.

Record Diagnostic := Diag {
  kind : error_class;
  line : Z;
  column : Z
}.

Definition error_class_eqb (a b : error_class) : bool :=
  match a, b with
  | UnnecessaryReturnNone, UnnecessaryReturnNone
  | ImplicitReturnValue, ImplicitReturnValue
  | ImplicitReturn, ImplicitReturn
  | UnnecessaryAssign, UnnecessaryAssign => true
  | _, _ => false
  end.

(** The findings of one class among [ds], in order. *)
Definition of_kind (k : error_class) (ds : list Diagnostic) : list Diagnostic :=
  List.filter (fun d => error_class_eqb (kind d) k) ds.

(** ** Visitor state *)

(** One entry of [self._stack]: the dictionary built by [_visit_with_stack].
    [assigns] and [refs] are [defaultdict(list)], [tries] and [loops] map a
    block's first line to its last line. *)
Record Scope := MkScope {
  assigns : gmap string (list Z);
  refs : gmap string (list Z);
  tries : gmap Z Z;
  loops : gmap Z Z;
  returns : list return_node
}.

Definition empty_scope : Scope :=
  {| assigns := ∅; refs := ∅; tries := ∅; loops := ∅; returns := [] |}.

(** The visitor object: [_stack] grows at its end ([append]) and
    [self._stack[-1]] is its last element; [errors] is the list that
    [error_from_node] appends to. *)
Record Visitor := MkVisitor {
  _stack : list Scope;
  errors : list Diagnostic;
  _loop_count : Z
}.

Definition initial : Visitor :=
  {| _stack := []; errors := []; _loop_count := 0 |}.

(** ** Results: a method returns, or raises [IndexError] *)

Inductive result (A : Type) :=
| Done (a : A)
| IndexError.
Arguments Done {A} a.
Arguments IndexError {A}.

Definition bind {A B} (r : result A) (k : A -> result B) : result B :=
  match r with
  | Done a => k a
  | IndexError => IndexError
  end.

Notation "x <~ c ;; k" := (bind c (fun x => k))
  (at level 100, c at next level, right associativity).

(** Visit every element of a list in order, stopping at the first raise. *)
Definition visit_list {A} (visit : A -> Visitor -> result Visitor)
  : list A -> Visitor -> result Visitor :=
  fix go (l : list A) (st : Visitor) : result Visitor :=
    match l with
    | [] => Done st
    | x :: l' => st' <~ visit x st;; go l' st'
    end.

(** An optional child field: absent ([None]) fields are skipped. *)
Definition visit_opt {A} (visit : A -> Visitor -> result Visitor)
  (o : option A) (st : Visitor) : result Visitor :=
  match o with
  | Some x => visit x st
  | None => Done st
  end.

(** [f(l[-1])]: raises on the empty list. *)
Definition on_last {A} (f : A -> Visitor -> result Visitor)
  : list A -> Visitor -> result Visitor :=
  fix go (l : list A) (st : Visitor) : result Visitor :=
    match l with
    | [] => IndexError
    | [x] => f x st
    | _ :: l' => go l' st
    end.

(** ** Scope access *)

(** [self._stack[-1]] *)
Definition current (st : Visitor) : result Scope :=
  match last (_stack st) with
  | Some sc => Done sc
  | None => IndexError
  end.

(** In-place mutation of the dictionary at [self._stack[-1]]. *)
Definition update_current (f : Scope -> Scope) (st : Visitor) : result Visitor :=
  sc <~ current st;;
  Done {| _stack := removelast (_stack st) ++ [f sc];
          errors := errors st;
          _loop_count := _loop_count st |}.

(** [d[k].append(v)] on a [defaultdict(list)] *)
Definition dict_append (k : string) (v : Z) (d : gmap string (list Z))
  : gmap string (list Z) :=
  <[k := default [] (d !! k) ++ [v]]> d.

(** [d[k]] read on a [defaultdict(list)] whose key may be missing. *)
Definition dict_get (k : string) (d : gmap string (list Z)) : list Z :=
  default [] (d !! k).

(** [k in d] *)
Definition dict_mem {K V} `{Countable K} (k : K) (d : gmap K V) : bool :=
  bool_decide (is_Some (d !! k)).

Definition append_ref (id : string) (l : Z) : Visitor -> result Visitor :=
  update_current (fun sc =>
    {| assigns := assigns sc; refs := dict_append id l (refs sc);
       tries := tries sc; loops := loops sc; returns := returns sc |}).

Definition append_assign (id : string) (l : Z) : Visitor -> result Visitor :=
  update_current (fun sc =>
    {| assigns := dict_append id l (assigns sc); refs := refs sc;
       tries := tries sc; loops := loops sc; returns := returns sc |}).

Definition set_try (l e : Z) : Visitor -> result Visitor :=
  update_current (fun sc =>
    {| assigns := assigns sc; refs := refs sc;
       tries := <[l := e]> (tries sc); loops := loops sc;
       returns := returns sc |}).

Definition set_loop (l e : Z) : Visitor -> result Visitor :=
  update_current (fun sc =>
    {| assigns := assigns sc; refs := refs sc;
       tries := tries sc; loops := <[l := e]> (loops sc);
       returns := returns sc |}).

Definition append_return (r : return_node) : Visitor -> result Visitor :=
  update_current (fun sc =>
    {| assigns := assigns sc; refs := refs sc;
       tries := tries sc; loops := loops sc;
       returns := returns sc ++ [r] |}).

(** [self._stack.append({...})] with five empty containers. *)
Definition push (st : Visitor) : Visitor :=
  {| _stack := _stack st ++ [empty_scope];
     errors := errors st;
     _loop_count := _loop_count st |}.

(** [self._stack.pop()] *)
Definition pop (st : Visitor) : result Visitor :=
  match _stack st with
  | [] => IndexError
  | _ => Done {| _stack := removelast (_stack st);
                 errors := errors st;
                 _loop_count := _loop_count st |}
  end.

(** [bool(self._stack)] *)
Definition stack_nonempty (st : Visitor) : bool :=
  match _stack st with
  | [] => false
  | _ => true
  end.

Definition set_loop_count (n : Z) (st : Visitor) : Visitor :=
  {| _stack := _stack st; errors := errors st; _loop_count := n |}.

(** [Visitor.error_from_node(cls, node)]: append a finding carrying the
    node's [lineno] and [col_offset]. *)
Definition error_from_node (k : error_class) (l c : Z) (st : Visitor) : Visitor :=
  {| _stack := _stack st;
     errors := errors st ++ [Diag k l c];
     _loop_count := _loop_count st |}.

(** ** Helpers imported from [.utils] *)

(** Modelled from the spec: [is_none] of [flake8_return/utils.py], which is
    not among the sources; the node "is exactly the None literal".  A bare
    [return] has no value node and is not the literal. *)
Definition is_none (v : option expr) : bool :=
  match v with
  | Some (Constant CNone _ _) => true
  | _ => false
  end.

(** Modelled from the spec: [is_false] of [flake8_return/utils.py], which is
    not among the sources; the condition "is a statically-false literal". *)
Definition is_false (e : expr) : bool :=
  match e with
  | Constant (CBool false) _ _ => true
  | _ => false
  end.

(** ** UnnecessaryAssignMixin: recording *)

(** [visit_Name] *)
Definition visit_Name (id : string) (lineno : Z) (st : Visitor) : result Visitor :=
  if stack_nonempty st then append_ref id lineno st else Done st.

(** [NodeVisitor.visit] on an expression: [visit_Name] for a name, and
    [generic_visit] (every child, in order) for anything else.  A name's
    and a constant's only children are context markers and values. *)
Fixpoint visit_expr (e : expr) (st : Visitor) : result Visitor :=
  match e with
  | Name id l _ => visit_Name id l st
  | Constant _ _ _ => Done st
  | Tuple elts _ _ => visit_list visit_expr elts st
  | OtherExpr children _ _ => visit_list visit_expr children st
  end.

(** [NodeVisitor.generic_visit] on an expression. *)
Definition generic_visit_expr (e : expr) (st : Visitor) : result Visitor :=
  match e with
  | Name _ _ _ | Constant _ _ _ => Done st
  | Tuple elts _ _ => visit_list visit_expr elts st
  | OtherExpr children _ _ => visit_list visit_expr children st
  end.

Section Visitor.

(** [sys.version_info >= (3, 8)], fixed for a run. *)
Variable py38 : bool.

(** [_visit_assign_target] *)
Fixpoint _visit_assign_target (node : expr) (st : Visitor) : result Visitor :=
  match node with
  | Tuple elts _ _ => visit_list _visit_assign_target elts st
  | Name id l _ =>
      if py38 || (_loop_count st =? 0)
      then append_assign id l st
      else generic_visit_expr node st
  | _ => generic_visit_expr node st
  end.

(** [visit_Assign] *)
Definition visit_Assign (targets : list expr) (rhs : expr) (st : Visitor)
  : result Visitor :=
  if negb (stack_nonempty st) then Done st else
  st1 <~ match rhs with
        | Name id l _ => append_ref id l st
        | _ => Done st
        end;;
  st2 <~ generic_visit_expr rhs st1;;
  match targets with
  | [] => IndexError
  | target :: _ =>
      match target, rhs with
      | Tuple _ _ _, Tuple _ _ _ => _visit_assign_target target st2
      | Tuple _ _ _, _ => Done st2
      | _, _ => _visit_assign_target target st2
      end
  end.

(** The span bookkeeping at the head of [_visit_loop]. *)
Definition record_loop (lineno : Z) (end_lineno : option Z) (st : Visitor)
  : result Visitor :=
  if stack_nonempty st then
    match end_lineno with
    | Some e => set_loop lineno e st
    | None => Done st
    end
  else Done st.

(** [_visit_loop], given the visit of the loop's children. *)
Definition _visit_loop (lineno : Z) (end_lineno : option Z)
  (generic_visit : Visitor -> result Visitor) (st : Visitor) : result Visitor :=
  if py38 then
    st1 <~ record_loop lineno end_lineno st;;
    generic_visit st1
  else
    st1 <~ generic_visit (set_loop_count (_loop_count st + 1) st);;
    Done (set_loop_count (_loop_count st1 - 1) st1).

(** The span bookkeeping at the head of [visit_Try]. *)
Definition record_try (lineno : Z) (end_lineno : option Z) (st : Visitor)
  : result Visitor :=
  if py38 then
    if stack_nonempty st then
      match end_lineno with
      | Some e => set_try lineno e st
      | None => Done st
      end
    else Done st
  else Done st.

(** ** UnnecessaryAssignMixin: the check *)

(** One (start, end) pair of [tries] or [loops] against a line. *)
Definition within (item : Z) (span : Z * Z) : bool :=
  (span.1 <? item) && (item <=? span.2).

(** [_has_refs_or_assigns_within_try_or_loop] on the current scope. *)
Definition _has_refs_or_assigns_within_try_or_loop (sc : Scope)
  (var_name : string) : bool :=
  existsb (fun item =>
      existsb (within item) (map_to_list (tries sc))
      || existsb (within item) (map_to_list (loops sc)))
    (dict_get var_name (refs sc) ++ dict_get var_name (assigns sc)).

(** The first loop of [_has_refs_before_next_assign]: run over the sorted
    assignment lines, giving [(before_assign, after_assign)]. *)
Fixpoint scan_assigns (return_lineno : Z) (sorted_assigns : list Z)
  (before_assign : Z) : Z * option Z :=
  match sorted_assigns with
  | [] => (before_assign, None)
  | lineno :: rest =>
      if lineno >? return_lineno then (before_assign, Some lineno)
      else scan_assigns return_lineno rest
             (if lineno <=? return_lineno then lineno else before_assign)
  end.

(** The second loop: is some read other than the return's an intervening
    use?  [if after_assign:] is false for [None] and for [0]. *)
Definition ref_in_window (return_lineno before_assign : Z)
  (after_assign : option Z) (lineno : Z) : bool :=
  if lineno =? return_lineno then false
  else
    match after_assign with
    | Some a =>
        if a =? 0 then before_assign <? lineno
        else (before_assign <? lineno) && (lineno <=? a)
    | None => before_assign <? lineno
    end.

(** [_has_refs_before_next_assign] on the current scope. *)
Definition _has_refs_before_next_assign (sc : Scope) (var_name : string)
  (return_lineno : Z) : bool :=
  let '(before_assign, after_assign) :=
    scan_assigns return_lineno
      (merge_sort Z.le (dict_get var_name (assigns sc))) 0 in
  existsb (ref_in_window return_lineno before_assign after_assign)
    (dict_get var_name (refs sc)).

(** [_check_unnecessary_assign] *)
Definition _check_unnecessary_assign (node : expr) (st : Visitor)
  : result Visitor :=
  match node with
  | Name var_name return_lineno col =>
      sc <~ current st;;
      if negb (dict_mem var_name (assigns sc)) then Done st
      else if negb (dict_mem var_name (refs sc))
      then Done (error_from_node UnnecessaryAssign return_lineno col st)
      else if _has_refs_before_next_assign sc var_name return_lineno
      then Done st
      else if py38 && _has_refs_or_assigns_within_try_or_loop sc var_name
      then Done st
      else Done (error_from_node UnnecessaryAssign return_lineno col st)
  | _ => Done st
  end.

(** ** UnnecessaryReturnNoneMixin, ImplicitReturnValueMixin *)

(** [_check_unnecessary_return_none] *)
Definition _check_unnecessary_return_none (st : Visitor) : result Visitor :=
  sc <~ current st;;
  Done (fold_left (fun st' node =>
          if is_none (value node)
          then error_from_node UnnecessaryReturnNone
                 (ret_lineno node) (ret_col_offset node) st'
          else st')
        (returns sc) st).

(** [_check_implicit_return_value]; [not node.value] holds exactly for a
    bare [return]. *)
Definition _check_implicit_return_value (st : Visitor) : result Visitor :=
  sc <~ current st;;
  Done (fold_left (fun st' node =>
          match value node with
          | None => error_from_node ImplicitReturnValue
                      (ret_lineno node) (ret_col_offset node) st'
          | Some _ => st'
          end)
        (returns sc) st).

(** ** ImplicitReturnMixin *)

Definition is_nil {A} (l : list A) : bool :=
  match l with
  | [] => true
  | _ => false
  end.

(** [_check_implicit_return] *)
Fixpoint _check_implicit_return (last_node : stmt) (st : Visitor)
  : result Visitor :=
  let flag := Done (error_from_node ImplicitReturn
                      (stmt_lineno last_node) (stmt_col_offset last_node) st) in
  match last_node with
  | If _ body orelse _ _ =>
      if is_nil body || is_nil orelse then flag
      else
        st1 <~ on_last _check_implicit_return body st;;
        on_last _check_implicit_return orelse st1
  | For _ _ _ _ orelse _ _ _ =>
      if is_nil orelse then flag
      else on_last _check_implicit_return orelse st
  | With _ _ body _ _ => on_last _check_implicit_return body st
  | Assert test _ _ _ => if is_false test then Done st else flag
  | Return _ | Raise _ _ _ _ | While _ _ _ _ _ _ | Try _ _ _ _ _ _ _ => Done st
  | FunctionDef _ _ _ _ _ _ _ | Assign _ _ _ _ | ExceptHandler _ _ _ _
  | OtherStmt _ _ _ _ _ => flag
  end.

(** ** ReturnVisitor *)

(** [_result_exists] *)
Definition _result_exists (sc : Scope) : bool :=
  existsb (fun node =>
      match value node with
      | Some v => negb (is_none (Some v))
      | None => false
      end)
    (returns sc).

(** [len(node.body) == 1 and isinstance(node.body[-1], ast.Return)] *)
Definition only_return (body : list stmt) : bool :=
  (length body =? 1)%nat &&
  match last body with
  | Some (Return _) => true
  | _ => false
  end.

(** The loop closing [_check_function]. *)
Definition check_assign_of (n : return_node) (st : Visitor) : result Visitor :=
  match value n with
  | Some v => _check_unnecessary_assign v st
  | None => Done st
  end.

(** [_check_function]; of the function node only [body] is read. *)
Definition _check_function (body : list stmt) (st : Visitor) : result Visitor :=
  sc <~ current st;;
  if is_nil (returns sc) || is_nil body then Done st
  else if only_return body then Done st
  else if negb (_result_exists sc) then _check_unnecessary_return_none st
  else
    st1 <~ _check_implicit_return_value st;;
    st2 <~ on_last _check_implicit_return body st1;;
    visit_list check_assign_of (returns sc) st2.

(** [NodeVisitor.visit] on a statement.  [FunctionDef] (and its async
    variant) is [_visit_with_stack]; [Return], [Assign], [For], [While],
    [Try] have their [visit_*] methods; every other class gets
    [generic_visit], its children in field order. *)
Fixpoint visit_stmt (s : stmt) (st : Visitor) : result Visitor :=
  match s with
  | FunctionDef _ args body decorator_list returns_ann _ _ =>
      st1 <~ visit_list visit_expr args (push st);;
      st2 <~ visit_list visit_stmt body st1;;
      st3 <~ visit_list visit_expr decorator_list st2;;
      st4 <~ visit_opt visit_expr returns_ann st3;;
      st5 <~ _check_function body st4;;
      pop st5
  | Return r =>
      st1 <~ append_return r st;;
      visit_opt visit_expr (value r) st1
  | Assign targets rhs _ _ => visit_Assign targets rhs st
  | If test body orelse _ _ =>
      st1 <~ visit_expr test st;;
      st2 <~ visit_list visit_stmt body st1;;
      visit_list visit_stmt orelse st2
  | For _ target iter body orelse l _ e =>
      _visit_loop l e (fun st0 =>
        st1 <~ visit_expr target st0;;
        st2 <~ visit_expr iter st1;;
        st3 <~ visit_list visit_stmt body st2;;
        visit_list visit_stmt orelse st3) st
  | While test body orelse l _ e =>
      _visit_loop l e (fun st0 =>
        st1 <~ visit_expr test st0;;
        st2 <~ visit_list visit_stmt body st1;;
        visit_list visit_stmt orelse st2) st
  | Try body handlers orelse finalbody l _ e =>
      st0 <~ record_try l e st;;
      st1 <~ visit_list visit_stmt body st0;;
      st2 <~ visit_list visit_stmt handlers st1;;
      st3 <~ visit_list visit_stmt orelse st2;;
      visit_list visit_stmt finalbody st3
  | ExceptHandler type body _ _ =>
      st1 <~ visit_opt visit_expr type st;;
      visit_list visit_stmt body st1
  | With _ items body _ _ =>
      st1 <~ visit_list visit_expr items st;;
      visit_list visit_stmt body st1
  | Assert test msg _ _ =>
      st1 <~ visit_expr test st;;
      visit_opt visit_expr msg st1
  | Raise exc cause _ _ =>
      st1 <~ visit_opt visit_expr exc st;;
      visit_opt visit_expr cause st1
  | OtherStmt exprs body exprs' _ _ =>
      st1 <~ visit_list visit_expr exprs st;;
      st2 <~ visit_list visit_stmt body st1;;
      visit_list visit_expr exprs' st2
  end.

(** Visiting an [ast.Module] with the given body, from a fresh visitor. *)
Definition run (module_body : list stmt) : result Visitor :=
  visit_list visit_stmt module_body initial.

End Visitor.

(** The [generic_visit] inside [_visit_with_stack]: the function's
    children, visited in the scope just pushed. *)
Definition walk_function (py38 : bool) (args : list expr) (body : list stmt)
  (decorator_list : list expr) (returns_ann : option expr) (st : Visitor)
  : result Visitor :=
  st1 <~ visit_list visit_expr args (push st);;
  st2 <~ visit_list (visit_stmt py38) body st1;;
  st3 <~ visit_list visit_expr decorator_list st2;;
  visit_opt visit_expr returns_ann st3.

(** ** Well-formed trees *)

(** What Python's grammar guarantees and the visitor relies on: an
    assignment has a target and a [with] block has a body. *)
Fixpoint well_formed (s : stmt) : bool :=
  match s with
  | FunctionDef _ _ body _ _ _ _ => forallb well_formed body
  | Return _ => true
  | Assign targets _ _ _ => negb (is_nil targets)
  | If _ body orelse _ _ => forallb well_formed body && forallb well_formed orelse
  | For _ _ _ body orelse _ _ _ =>
      forallb well_formed body && forallb well_formed orelse
  | While _ body orelse _ _ _ =>
      forallb well_formed body && forallb well_formed orelse
  | Try body handlers orelse finalbody _ _ _ =>
      forallb well_formed body && forallb well_formed handlers
      && forallb well_formed orelse && forallb well_formed finalbody
  | ExceptHandler _ body _ _ => forallb well_formed body
  | With _ _ body _ _ => negb (is_nil body) && forallb well_formed body
  | Assert _ _ _ _ | Raise _ _ _ _ => true
  | OtherStmt _ body _ _ _ => forallb well_formed body
  end.

(** No [Return] outside a function definition. *)
Fixpoint returns_in_functions (s : stmt) : bool :=
  match s with
  | FunctionDef _ _ _ _ _ _ _ => true
  | Return _ => false
  | Assign _ _ _ _ | Assert _ _ _ _ | Raise _ _ _ _ => true
  | If _ body orelse _ _ =>
      forallb returns_in_functions body && forallb returns_in_functions orelse
  | For _ _ _ body orelse _ _ _ =>
      forallb returns_in_functions body && forallb returns_in_functions orelse
  | While _ body orelse _ _ _ =>
      forallb returns_in_functions body && forallb returns_in_functions orelse
  | Try body handlers orelse finalbody _ _ _ =>
      forallb returns_in_functions body && forallb returns_in_functions handlers
      && forallb returns_in_functions orelse
      && forallb returns_in_functions finalbody
  | ExceptHandler _ body _ _ => forallb returns_in_functions body
  | With _ _ body _ _ => forallb returns_in_functions body
  | OtherStmt _ body _ _ _ => forallb returns_in_functions body
  end.

(** The statement kinds that [_check_implicit_return] lets pass unseen. *)
Definition self_terminating (s : stmt) : bool :=
  match s with
  | Return _ | Raise _ _ _ _ | While _ _ _ _ _ _ | Try _ _ _ _ _ _ _ => true
  | _ => false
  end.

(** ** Findings as values *)

(** The visitor with [ds] appended to its [errors]. *)
Definition emit (ds : list Diagnostic) (st : Visitor) : Visitor :=
  {| _stack := _stack st;
     errors := errors st ++ ds;
     _loop_count := _loop_count st |}.

(** The finding of class [k] at a [Return] node. *)
Definition diag_at (k : error_class) (r : return_node) : Diagnostic :=
  Diag k (ret_lineno r) (ret_col_offset r).

Definition is_bare (r : return_node) : bool :=
  match value r with
  | None => true
  | Some _ => false
  end.

(** The [UnnecessaryAssign] finding a [Return] can trigger: at its value,
    when that is a bare name. *)
Definition value_diag (r : return_node) : option Diagnostic :=
  match value r with
  | Some (Name _ l c) => Some (Diag UnnecessaryAssign l c)
  | _ => None
  end.

(** The visitor with the dictionary at the top of its stack replaced. *)
Definition with_current (sc : Scope) (st : Visitor) : Visitor :=
  {| _stack := removelast (_stack st) ++ [sc];
     errors := errors st;
     _loop_count := _loop_count st |}.

(** A scope with one more recorded loop span, or try span. *)
Definition with_loop (s e : Z) (sc : Scope) : Scope :=
  {| assigns := assigns sc; refs := refs sc; tries := tries sc;
     loops := <[s := e]> (loops sc); returns := returns sc |}.

Definition with_try (s e : Z) (sc : Scope) : Scope :=
  {| assigns := assigns sc; refs := refs sc; tries := <[s := e]> (tries sc);
     loops := loops sc; returns := returns sc |}.

(** A check that only appends the findings [r] (or raises when [r] does),
    whatever the visitor it starts from. *)
Definition emits (check : Visitor -> result Visitor)
  (r : result (list Diagnostic)) : Prop :=
  forall st, check st = (ds <~ r;; Done (emit ds st)).

(** ** What a walk may change *)

(** Between two moments of one walk inside the same function, the scope
    only gains: recorded reads stay, returns are appended, and a [Return]
    appended with a bare name as value has that name's read recorded on
    its line.  Without end lines no span is ever recorded. *)
Definition scope_grows (py38 : bool) (sc sc' : Scope) : Prop :=
  (forall x l, In l (dict_get x (refs sc)) -> In l (dict_get x (refs sc'))) /\
  (exists new,
     returns sc' = returns sc ++ new /\
     forall r x l c, In r new -> value r = Some (Name x l c) ->
       In l (dict_get x (refs sc'))) /\
  (py38 = false -> tries sc' = tries sc /\ loops sc' = loops sc).

(** Visiting a node appends the findings [new], restores [_loop_count],
    leaves every enclosing scope alone and lets the current one grow. *)
Definition walked (py38 : bool) (new : list Diagnostic) (st st' : Visitor)
  : Prop :=
  errors st' = errors st ++ new /\
  _loop_count st' = _loop_count st /\
  (_stack st = [] -> _stack st' = []) /\
  (forall rest sc, _stack st = rest ++ [sc] ->
     exists sc', _stack st' = rest ++ [sc'] /\ scope_grows py38 sc sc').

(** A visit that always returns and finds nothing (expressions). *)
Definition quiet (py38 : bool) (c : Visitor -> result Visitor) : Prop :=
  forall st, exists st', c st = Done st' /\ walked py38 [] st st'.

(** A visit that returns and finds nothing whenever a scope is open. *)
Definition quiet_open (py38 : bool) (c : Visitor -> result Visitor) : Prop :=
  forall st, stack_nonempty st = true ->
    exists st', c st = Done st' /\ walked py38 [] st st'.

(** A visit that appends no [Return] to any scope (expressions). *)
Definition keeps_returns (c : Visitor -> result Visitor) : Prop :=
  forall st st', c st = Done st' ->
    map returns (_stack st') = map returns (_stack st).

(** How a visit behaves: when it returns it has [walked]; on a tree that
    is well formed ([wf]) it returns whenever a scope is open or the tree
    has no [Return] outside a function ([guarded]); and on a tree with
    such a [Return] it raises when no scope is open. *)
Definition behaves (py38 : bool) (c : Visitor -> result Visitor)
  (wf guarded : bool) : Prop :=
  (forall st st', c st = Done st' -> exists new, walked py38 new st st') /\
  (wf = true -> forall st,
     stack_nonempty st = true \/ guarded = true -> exists st', c st = Done st') /\
  (guarded = false -> forall st, _stack st = [] -> c st = IndexError).

(** The state of a scope when the function-level checks read it: the read
    of every returned bare name is recorded on the line of that name, and
    spans exist only when end lines do. *)
Definition recorded_scope (py38 : bool) (sc : Scope) : Prop :=
  (forall r x l c, In r (returns sc) -> value r = Some (Name x l c) ->
     In l (dict_get x (refs sc))) /\
  (py38 = false -> tries sc = ∅ /\ loops sc = ∅).

(** ** Traversal order *)

(** A node is identified by where it starts. *)
Definition position : Type := Z * Z.

Definition diag_position (d : Diagnostic) : position := (line d, column d).

(** The nodes below an expression, in the order [NodeVisitor] reaches
    them: a node, then its children field by field. *)
Fixpoint expr_positions (e : expr) : list position :=
  (expr_lineno e, expr_col_offset e) ::
  match e with
  | Name _ _ _ | Constant _ _ _ => []
  | Tuple elts _ _ => flat_map expr_positions elts
  | OtherExpr children _ _ => flat_map expr_positions children
  end.

Definition opt_positions (o : option expr) : list position :=
  match o with
  | Some e => expr_positions e
  | None => []
  end.

Fixpoint stmt_positions (s : stmt) : list position :=
  (stmt_lineno s, stmt_col_offset s) ::
  match s with
  | FunctionDef _ args body decorator_list returns_ann _ _ =>
      flat_map expr_positions args ++ flat_map stmt_positions body
      ++ flat_map expr_positions decorator_list ++ opt_positions returns_ann
  | Return r => opt_positions (value r)
  | Assign targets rhs _ _ =>
      flat_map expr_positions targets ++ expr_positions rhs
  | If test body orelse _ _ =>
      expr_positions test ++ flat_map stmt_positions body
      ++ flat_map stmt_positions orelse
  | For _ target iter body orelse _ _ _ =>
      expr_positions target ++ expr_positions iter
      ++ flat_map stmt_positions body ++ flat_map stmt_positions orelse
  | While test body orelse _ _ _ =>
      expr_positions test ++ flat_map stmt_positions body
      ++ flat_map stmt_positions orelse
  | Try body handlers orelse finalbody _ _ _ =>
      flat_map stmt_positions body ++ flat_map stmt_positions handlers
      ++ flat_map stmt_positions orelse ++ flat_map stmt_positions finalbody
  | ExceptHandler type body _ _ =>
      opt_positions type ++ flat_map stmt_positions body
  | With _ items body _ _ =>
      flat_map expr_positions items ++ flat_map stmt_positions body
  | Assert test msg _ _ => expr_positions test ++ opt_positions msg
  | Raise exc cause _ _ => opt_positions exc ++ opt_positions cause
  | OtherStmt exprs body exprs' _ _ =>
      flat_map expr_positions exprs ++ flat_map stmt_positions body
      ++ flat_map expr_positions exprs'
  end.

(** The findings of the terminal-path check do not depend on the visitor:
    they are [ImplicitReturn] findings at nodes below the statement, in
    the order the walker reaches those nodes. *)
Definition terminal_findings_ok (positions : list position)
  (r : result (list Diagnostic)) : Prop :=
  forall ds, r = Done ds ->
    Forall (fun d => kind d = ImplicitReturn) ds /\
    sublist (map diag_position ds) positions.



(** ** Sample programs and scopes *)

(** The function [def f(): x = 1; return x] on lines 1 to 3. *)
Definition assign_then_return : stmt :=
  FunctionDef false []
    [ Assign [Name "x" 2 4] (Constant COther 2 8) 2 4;
      Return (ReturnNode (Some (Name "x" 3 11)) 3 4) ]
    [] None 1 0.

(** The scope the walker has built for it when the checks run. *)
Definition scope_x : Scope :=
  {| assigns := {["x" := [2]]}; refs := {["x" := [3]]};
     tries := ∅; loops := ∅;
     returns := [ReturnNode (Some (Name "x" 3 11)) 3 4] |}.

(** A visitor inside one function, with nothing found so far. *)
Definition visitor_at (sc : Scope) : Visitor :=
  {| _stack := [sc]; errors := []; _loop_count := 0 |}.

(** [def f(): x = 1; if c: return x; return] on lines 1 to 5, one
    statement per line. *)
Definition mixed_returns : stmt :=
  FunctionDef false []
    [ Assign [Name "x" 2 4] (Constant COther 2 8) 2 4;
      If (Name "c" 3 7) [Return (ReturnNode (Some (Name "x" 4 15)) 4 8)] [] 3 4;
      Return (ReturnNode None 5 4) ]
    [] None 1 0.

(** [def f(): if c: return 1; return] on lines 1 to 4. *)
Definition valued_then_bare : stmt :=
  FunctionDef false []
    [ If (Name "c" 2 7) [Return (ReturnNode (Some (Constant COther 3 15)) 3 8)]
        [] 2 4;
      Return (ReturnNode None 4 4) ]
    [] None 1 0.

(** The scope the walker has built for [valued_then_bare]. *)
Definition scope_valued_then_bare : Scope :=
  {| assigns := ∅; refs := {["c" := [2]]}; tries := ∅; loops := ∅;
     returns := [ ReturnNode (Some (Constant COther 3 15)) 3 8;
                  ReturnNode None 4 4 ] |}.

(** [def f(): if c: return 1] and [def f(): if c: return 1 else: return 2]. *)
Definition if_without_else : stmt :=
  If (Name "c" 2 7) [Return (ReturnNode (Some (Constant COther 3 15)) 3 8)]
    [] 2 4.

Definition if_with_else : stmt :=
  If (Name "c" 2 7) [Return (ReturnNode (Some (Constant COther 3 15)) 3 8)]
    [Return (ReturnNode (Some (Constant COther 5 15)) 5 8)] 2 4.

Definition scope_one_return : Scope :=
  {| assigns := ∅; refs := {["c" := [2]]}; tries := ∅; loops := ∅;
     returns := [ ReturnNode (Some (Constant COther 3 15)) 3 8 ] |}.

Definition scope_two_returns : Scope :=
  {| assigns := ∅; refs := {["c" := [2]]}; tries := ∅; loops := ∅;
     returns := [ ReturnNode (Some (Constant COther 3 15)) 3 8;
                  ReturnNode (Some (Constant COther 5 15)) 5 8 ] |}.

(** The scope of [def f(): for i in xs: x = 1] followed by [return x]
    on line 4: the assignment of line 3 lies in the loop of lines 2-3. *)
Definition scope_loop_assign : Scope :=
  {| assigns := {["x" := [3]]};
     refs := {["i" := [2]; "xs" := [2]; "x" := [4]]};
     tries := ∅; loops := {[2 := 3]};
     returns := [ReturnNode (Some (Name "x" 4 11)) 4 4] |}.

(** Between [st] and [st'] nothing has changed but the reads of the
    current scope, and those have only gained entries at the end. *)
Definition only_reads (st st' : Visitor) : Prop :=
  errors st' = errors st /\
  _loop_count st' = _loop_count st /\
  (_stack st = [] -> st' = st) /\
  (forall rest sc, _stack st = rest ++ [sc] ->
     exists sc',
       _stack st' = rest ++ [sc'] /\
       assigns sc' = assigns sc /\ tries sc' = tries sc /\
       loops sc' = loops sc /\ returns sc' = returns sc /\
       forall x, exists more,
         dict_get x (refs sc') = dict_get x (refs sc) ++ more).

(** A visit that always returns and records nothing but reads. *)
Definition reads (c : Visitor -> result Visitor) : Prop :=
  forall st, exists st', c st = Done st' /\ only_reads st st'.

(** The statements that [_check_implicit_return] flags on the spot: a
    [for] loop without [else], an [assert] of anything but the literal
    [False], and every statement that is neither a compound statement it
    looks into nor one it lets pass. *)
Definition plain_fall_through (s : stmt) : bool :=
  match s with
  | For _ _ _ _ orelse _ _ _ => is_nil orelse
  | Assert test _ _ _ => negb (is_false test)
  | FunctionDef _ _ _ _ _ _ _ | Assign _ _ _ _ | ExceptHandler _ _ _ _
  | OtherStmt _ _ _ _ _ => true
  | _ => false
  end.

(** Is there a function definition at or below this statement? *)
Fixpoint has_function_def (s : stmt) : bool :=
  match s with
  | FunctionDef _ _ _ _ _ _ _ => true
  | Return _ | Assign _ _ _ _ | Assert _ _ _ _ | Raise _ _ _ _ => false
  | If _ body orelse _ _ =>
      existsb has_function_def body || existsb has_function_def orelse
  | For _ _ _ body orelse _ _ _ =>
      existsb has_function_def body || existsb has_function_def orelse
  | While _ body orelse _ _ _ =>
      existsb has_function_def body || existsb has_function_def orelse
  | Try body handlers orelse finalbody _ _ _ =>
      existsb has_function_def body || existsb has_function_def handlers
      || existsb has_function_def orelse
      || existsb has_function_def finalbody
  | ExceptHandler _ body _ _ => existsb has_function_def body
  | With _ _ body _ _ => existsb has_function_def body
  | OtherStmt _ body _ _ _ => existsb has_function_def body
  end.

(** A visit that appends no finding. *)
Definition silent (c : Visitor -> result Visitor) : Prop :=
  forall st st', c st = Done st' -> errors st' = errors st.

(** Two visitors that show a visit the same things: the same loop
    counter and the same current scope (or none). *)
Definition same_view (st1 st2 : Visitor) : Prop :=
  _loop_count st1 = _loop_count st2 /\
  last (_stack st1) = last (_stack st2).

(** A visit that sees only the loop counter and the current scope: from
    two visitors with the same view it raises in both or returns in both,
    with the same findings appended and the same view again. *)
Definition local (c : Visitor -> result Visitor) : Prop :=
  forall st1 st2, same_view st1 st2 ->
    match c st1, c st2 with
    | Done a, Done b =>
        same_view a b /\
        exists new, errors a = errors st1 ++ new /\
                    errors b = errors st2 ++ new
    | IndexError, IndexError => True
    | _, _ => False
    end.

(** [_visit_with_stack] up to its [pop]: the children in the scope just
    pushed, then the checks. *)
Definition walk_and_check (py38 : bool) (args : list expr) (body : list stmt)
  (decorator_list : list expr) (returns_ann : option expr) (st : Visitor)
  : result Visitor :=
  st1 <~ visit_list visit_expr args st;;
  st2 <~ visit_list (visit_stmt py38) body st1;;
  st3 <~ visit_list visit_expr decorator_list st2;;
  st4 <~ visit_opt visit_expr returns_ann st3;;
  _check_function py38 body st4.

(** The [Return] nodes at or below a statement that belong to the
    function the statement is in: in source order, without those of
    nested function definitions. *)
Fixpoint returns_of (s : stmt) : list return_node :=
  match s with
  | FunctionDef _ _ _ _ _ _ _ => []
  | Return r => [r]
  | Assign _ _ _ _ | Assert _ _ _ _ | Raise _ _ _ _ => []
  | If _ body orelse _ _ => flat_map returns_of body ++ flat_map returns_of orelse
  | For _ _ _ body orelse _ _ _ =>
      flat_map returns_of body ++ flat_map returns_of orelse
  | While _ body orelse _ _ _ =>
      flat_map returns_of body ++ flat_map returns_of orelse
  | Try body handlers orelse finalbody _ _ _ =>
      flat_map returns_of body ++ flat_map returns_of handlers
      ++ flat_map returns_of orelse ++ flat_map returns_of finalbody
  | ExceptHandler _ body _ _ => flat_map returns_of body
  | With _ _ body _ _ => flat_map returns_of body
  | OtherStmt _ body _ _ _ => flat_map returns_of body
  end.

(** A visit that, in an open scope, appends exactly [rs] to the returns
    of the current scope. *)
Definition collects (c : Visitor -> result Visitor) (rs : list return_node)
  : Prop :=
  forall st st' rest sc,
    c st = Done st' -> _stack st = rest ++ [sc] ->
    exists sc', _stack st' = rest ++ [sc'] /\ returns sc' = returns sc ++ rs.

(** ** Reading the checks *)

(** A read of line [l] that stands between the binding returned on line
    [L] and the next one: on another line than the return, after every
    assignment at or before [L], and not after an assignment that follows
    [L]. *)
Definition intervening_read (assigned read : list Z) (L l : Z) : Prop :=
  In l read /\ l <> L /\
  (forall a, In a assigned -> a <= L -> a < l) /\
  (forall a, In a assigned -> L < a -> l <= a).

(** A recorded line of [x], read or assigned, inside a recorded span. *)
Definition line_in_span (sc : Scope) (x : string) : Prop :=
  exists item s e,
    In item (dict_get x (refs sc) ++ dict_get x (assigns sc)) /\
    (tries sc !! s = Some e \/ loops sc !! s = Some e) /\ s < item <= e.

(** The scope of [def f(): x = 1; print(x); return x] on lines 1 to 4. *)
Definition scope_used_x : Scope :=
  {| assigns := {["x" := [2]]}; refs := {["x" := [3; 4]]};
     tries := ∅; loops := ∅;
     returns := [ReturnNode (Some (Name "x" 4 11)) 4 4] |}.

(** The visitor a visit ends in (the fresh one when it raises). *)
Definition state_of (r : result Visitor) : Visitor :=
  match r with
  | Done st => st
  | IndexError => initial
  end.

(** [def g(): for i in xs: x = 1] then [return x], on lines 1 to 4. *)
Definition loop_then_return : list stmt :=
  [ For false (Name "i" 2 8) (Name "xs" 2 13)
      [Assign [Name "x" 3 8] (Constant COther 3 12) 3 8] [] 2 4 (Some 3);
    Return (ReturnNode (Some (Name "x" 4 11)) 4 4) ].

(** The scope of [def f(): if c: return None] then [return]: a [None]
    literal on line 3, a bare return on line 4. *)
Definition scope_none_returns : Scope :=
  {| assigns := ∅; refs := {["c" := [2]]}; tries := ∅; loops := ∅;
     returns := [ ReturnNode (Some (Constant CNone 3 15)) 3 8;
                  ReturnNode None 4 4 ] |}.

(** ** Assignments the walker records *)

(** Is [x] one of the names that [_visit_assign_target] reaches below this
    target?  It looks through tuples, nested ones too, and into nothing
    else. *)
Fixpoint target_binds (x : string) (target : expr) : bool :=
  match target with
  | Name id _ _ => bool_decide (id = x)
  | Tuple elts _ _ => existsb (target_binds x) elts
  | _ => false
  end.

(** Is there, at or below this statement and outside nested function
    definitions, an [Assign] that [visit_Assign] records for [x]?  Only
    [targets[0]] is looked at, and not at all when it is a tuple while the
    value is not a tuple literal.  Without end lines the loop counter is
    raised inside every loop, and nothing below a loop is recorded. *)
Fixpoint records_assign (py38 : bool) (x : string) (s : stmt) : bool :=
  match s with
  | FunctionDef _ _ _ _ _ _ _ => false
  | Return _ | Assert _ _ _ _ | Raise _ _ _ _ => false
  | Assign targets rhs _ _ =>
      match targets with
      | [] => false
      | target :: _ =>
          match target, rhs with
          | Tuple _ _ _, Tuple _ _ _ => target_binds x target
          | Tuple _ _ _, _ => false
          | _, _ => target_binds x target
          end
      end
  | If _ body orelse _ _ =>
      existsb (records_assign py38 x) body
      || existsb (records_assign py38 x) orelse
  | For _ _ _ body orelse _ _ _ =>
      py38 && (existsb (records_assign py38 x) body
               || existsb (records_assign py38 x) orelse)
  | While _ body orelse _ _ _ =>
      py38 && (existsb (records_assign py38 x) body
               || existsb (records_assign py38 x) orelse)
  | Try body handlers orelse finalbody _ _ _ =>
      existsb (records_assign py38 x) body
      || existsb (records_assign py38 x) handlers
      || existsb (records_assign py38 x) orelse
      || existsb (records_assign py38 x) finalbody
  | ExceptHandler _ body _ _ => existsb (records_assign py38 x) body
  | With _ _ body _ _ => existsb (records_assign py38 x) body
  | OtherStmt _ body _ _ _ => existsb (records_assign py38 x) body
  end.

(** A visit that keeps the loop counter and the stack below the current
    scope, and drops no name from the current scope's [assigns]. *)
Definition assigns_kept (st st' : Visitor) : Prop :=
  _loop_count st' = _loop_count st /\
  forall rest sc, _stack st = rest ++ [sc] ->
    exists sc', _stack st' = rest ++ [sc'] /\
      forall y, is_Some (assigns sc !! y) -> is_Some (assigns sc' !! y).

Definition keeps_assigns (c : Visitor -> result Visitor) : Prop :=
  forall st st', c st = Done st' -> assigns_kept st st'.

(** A visit after which [x] has an entry in the current scope's
    [assigns], when it starts in an open scope and the test of
    [_visit_assign_target] passes there: end lines are available, or the
    loop counter is zero. *)
Definition records (py38 : bool) (x : string)
  (c : Visitor -> result Visitor) : Prop :=
  forall st st' rest sc,
    c st = Done st' -> _stack st = rest ++ [sc] ->
    py38 = true \/ _loop_count st = 0 ->
    exists sc', _stack st' = rest ++ [sc'] /\ is_Some (assigns sc' !! x).

(** Equality of findings, as a test. *)
Definition diag_eqb (d1 d2 : Diagnostic) : bool :=
  error_class_eqb (kind d1) (kind d2)
  && (line d1 =? line d2) && (column d1 =? column d2).

(** What one turn of the loop closing [_check_function] appends for the
    return [r] when the current scope is [sc]. *)
Definition finding_of (py38 : bool) (sc : Scope) (r : return_node)
  : list Diagnostic :=
  match check_assign_of py38 r (visitor_at sc) with
  | Done st' => errors st'
  | IndexError => []
  end.

(** ** The unnecessary-assign claim, in the specification's words *)

(** "An assignment binding variable x", at or below a statement of the
    function: [x] is a name of one of the assignment's targets, whichever
    target and however deep in a tuple. *)
Fixpoint spec_binds (x : string) (s : stmt) : bool :=
  match s with
  | FunctionDef _ _ _ _ _ _ _ => false
  | Return _ | Assert _ _ _ _ | Raise _ _ _ _ => false
  | Assign targets _ _ _ => existsb (target_binds x) targets
  | If _ body orelse _ _ =>
      existsb (spec_binds x) body || existsb (spec_binds x) orelse
  | For _ _ _ body orelse _ _ _ =>
      existsb (spec_binds x) body || existsb (spec_binds x) orelse
  | While _ body orelse _ _ _ =>
      existsb (spec_binds x) body || existsb (spec_binds x) orelse
  | Try body handlers orelse finalbody _ _ _ =>
      existsb (spec_binds x) body || existsb (spec_binds x) handlers
      || existsb (spec_binds x) orelse || existsb (spec_binds x) finalbody
  | ExceptHandler _ body _ _ => existsb (spec_binds x) body
  | With _ _ body _ _ => existsb (spec_binds x) body
  | OtherStmt _ body _ _ _ => existsb (spec_binds x) body
  end.

(** "The body contains an assignment binding x and a later Return whose
    value is the bare name x": a statement of the body binds [x], and a
    statement after it is [return x], the name being at line [L] and
    column [c]. *)
Definition spec_assign_then_return (x : string) (L c : Z) (body : list stmt)
  : Prop :=
  exists (i j : nat) (s : stmt) (r : return_node),
    body !! i = Some s /\ spec_binds x s = true /\
    body !! j = Some (Return r) /\ (i < j)%nat /\
    value r = Some (Name x L c).

(** "Exactly one UnnecessaryAssign diagnostic, located at the line of the
    return's value expression." *)
Definition spec_flagged_once (L : Z) (ds : list Diagnostic) : Prop :=
  exists d, of_kind UnnecessaryAssign ds = [d] /\ line d = L.

(** A function [def f(): body] that meets every condition of the claim
    for [x] and the return value at line [L], column [c], and for which
    nothing is reported: the walk leaves the scope [sc], where every
    recorded read of [x] is on line [L] and no recorded line of [x] is
    inside a span. *)
Definition unflagged (py38 : bool) (x : string) (L c : Z) (body : list stmt)
  : Prop :=
  spec_assign_then_return x L c body /\
  exists st4 sc st',
    walk_function py38 [] body [] None initial = Done st4 /\
    _stack st4 = [sc] /\
    Forall (fun l => l = L) (dict_get x (refs sc)) /\
    ~ line_in_span sc x /\
    visit_stmt py38 (FunctionDef false [] body [] None 1 0) initial
    = Done st' /\
    errors st' = [] /\
    ~ spec_flagged_once L (errors st').

(** The body of [def f(): x, y = g(); return x], on lines 2 and 3. *)
Definition unpack_then_return : list stmt :=
  [ Assign [Tuple [Name "x" 2 4; Name "y" 2 7] 2 4]
      (OtherExpr [Name "g" 2 11] 2 11) 2 4;
    Return (ReturnNode (Some (Name "x" 3 11)) 3 4) ].

(** The body of [def f(): y = x = 1; return x], on lines 2 and 3. *)
Definition chained_then_return : list stmt :=
  [ Assign [Name "y" 2 4; Name "x" 2 8] (Constant COther 2 12) 2 4;
    Return (ReturnNode (Some (Name "x" 3 11)) 3 4) ].

(** ** Basic facts *)

Lemma emit_nil st : emit [] st = st.
Proof. destruct st; unfold emit; simpl. by rewrite app_nil_r. Qed.

Lemma emit_emit a b st : emit b (emit a st) = emit (a ++ b) st.
Proof. unfold emit; simpl. by rewrite app_assoc. Qed.

Lemma error_from_node_emit k l c st :
  error_from_node k l c st = emit [Diag k l c] st.
Proof. reflexivity. Qed.

Lemma current_top st rest sc :
  _stack st = rest ++ [sc] -> current st = Done sc.
Proof. intros H. unfold current. by rewrite H, last_snoc. Qed.

Lemma current_empty st : _stack st = [] -> current st = IndexError.
Proof. intros H. unfold current. by rewrite H. Qed.

Lemma current_emit ds st : current (emit ds st) = current st.
Proof. reflexivity. Qed.

Lemma stack_nonempty_top st rest sc :
  _stack st = rest ++ [sc] -> stack_nonempty st = true.
Proof. intros H. unfold stack_nonempty. rewrite H. by destruct rest. Qed.

Lemma stack_nonempty_empty st : _stack st = [] -> stack_nonempty st = false.
Proof. intros H. unfold stack_nonempty. by rewrite H. Qed.

Lemma update_current_top f st rest sc :
  _stack st = rest ++ [sc] ->
  update_current f st =
    Done {| _stack := rest ++ [f sc]; errors := errors st;
            _loop_count := _loop_count st |}.
Proof.
  intros H. unfold update_current. rewrite (current_top _ _ _ H). simpl.
  by rewrite H, removelast_last.
Qed.

Lemma dict_mem_true {V} (k : string) (d : gmap string V) :
  dict_mem k d = true <-> is_Some (d !! k).
Proof. unfold dict_mem. by rewrite bool_decide_eq_true. Qed.

(** A line lies in some span of [m] exactly when the scan over the
    dictionary's items finds one. *)
Lemma within_spans item (m : gmap Z Z) :
  existsb (within item) (map_to_list m) = true <->
  exists s e, m !! s = Some e /\ s < item <= e.
Proof.
  rewrite existsb_exists. split.
  - intros [[s e] [Hin Hw]]. exists s, e.
    apply list_elem_of_In, elem_of_map_to_list in Hin.
    unfold within in Hw; simpl in Hw.
    apply andb_true_iff in Hw as [H1 H2].
    split; [done | lia].
  - intros (s & e & Hm & Hlt). exists (s, e). split.
    + by apply list_elem_of_In, elem_of_map_to_list.
    + unfold within; simpl. apply andb_true_iff. lia.
Qed.

Lemma suppressed_iff sc x :
  _has_refs_or_assigns_within_try_or_loop sc x = true <->
  exists item s e,
    In item (dict_get x (refs sc) ++ dict_get x (assigns sc)) /\
    (tries sc !! s = Some e \/ loops sc !! s = Some e) /\ s < item <= e.
Proof.
  unfold _has_refs_or_assigns_within_try_or_loop.
  rewrite existsb_exists. split.
  - intros (item & Hin & Hor). apply orb_true_iff in Hor as [H | H];
      apply within_spans in H as (s & e & Hm & Hlt);
      exists item, s, e; auto.
  - intros (item & s & e & Hin & [Hm | Hm] & Hlt); exists item;
      (split; [done |]); apply orb_true_iff; [left | right];
      apply within_spans; eauto.
Qed.


(** ** The terminal-path check *)

(** C6.  A [Return], [Raise], [While] or [Try] statement handed to
    [_check_implicit_return] leaves the visitor as it was, whatever the
    statement contains: no [ImplicitReturn] is appended for it. *)
Theorem terminal_kinds_pass (s : stmt) (st : Visitor) :
  self_terminating s = true ->
  _check_implicit_return s st = Done st.
Proof. by destruct s. Qed.

Lemma terminal_kinds_pass_witness :
  _check_implicit_return
    (While (Constant (CBool false) 2 10) [OtherStmt [] [] [] 3 8] [] 2 4 (Some 3))
    initial
  = Done initial
  /\ _check_implicit_return
       (Try [OtherStmt [] [] [] 3 8] [] [] [OtherStmt [] [] [] 5 8] 2 4 (Some 5))
       initial
     = Done initial.
Proof.
  split; apply terminal_kinds_pass; reflexivity.
Defined.

(** ** Module-level code *)

(** C9.  With an empty scope stack, visiting a [Name] or an [Assign]
    returns normally and leaves the whole visitor unchanged: no occurrence
    map is touched and nothing is appended to the findings. *)
Theorem module_level_ignored (py38 : bool) (st : Visitor) :
  _stack st = [] ->
  (forall id l c, visit_expr (Name id l c) st = Done st) /\
  (forall targets rhs l c,
      visit_stmt py38 (Assign targets rhs l c) st = Done st).
Proof.
  intros Hst. split.
  - intros id l c. simpl. unfold visit_Name.
    by rewrite (stack_nonempty_empty _ Hst).
  - intros targets rhs l c. simpl. unfold visit_Assign.
    by rewrite (stack_nonempty_empty _ Hst).
Qed.

Lemma module_level_ignored_witness :
  visit_expr (Name "x" 1 0) initial = Done initial /\
  visit_stmt true (Assign [Name "x" 1 0] (Name "y" 1 4) 1 0) initial
  = Done initial.
Proof.
  destruct (module_level_ignored true initial eq_refl) as [Hn Ha].
  split; [apply Hn | apply Ha].
Defined.

(** ** What each check appends *)


Lemma fold_return_none rs st :
  fold_left (fun st' node =>
      if is_none (value node)
      then error_from_node UnnecessaryReturnNone
             (ret_lineno node) (ret_col_offset node) st'
      else st') rs st
  = emit (map (diag_at UnnecessaryReturnNone)
            (List.filter (fun r => is_none (value r)) rs)) st.
Proof.
  revert st. induction rs as [| r rs IH]; intros st; simpl.
  - by rewrite emit_nil.
  - rewrite IH. destruct (is_none (value r)); simpl; [| done].
    by rewrite error_from_node_emit, emit_emit.
Qed.

Lemma fold_implicit_value rs st :
  fold_left (fun st' node =>
      match value node with
      | None => error_from_node ImplicitReturnValue
                  (ret_lineno node) (ret_col_offset node) st'
      | Some _ => st'
      end) rs st
  = emit (map (diag_at ImplicitReturnValue) (List.filter is_bare rs)) st.
Proof.
  revert st. induction rs as [| r rs IH]; intros st; simpl.
  - by rewrite emit_nil.
  - rewrite IH. unfold is_bare at 2. destruct (value r); simpl; [done |].
    by rewrite error_from_node_emit, emit_emit.
Qed.

Lemma on_last_snoc {A} (f : A -> Visitor -> result Visitor) l x st :
  on_last f (l ++ [x]) st = f x st.
Proof.
  induction l as [| y l IH]; simpl; [done |].
  rewrite <- IH. by destruct l.
Qed.

Lemma on_last_emits (l : list stmt) :
  list_all stmt (fun s => exists r,
      emits (_check_implicit_return s) r /\
      (well_formed s = true -> r <> IndexError) /\
      terminal_findings_ok (stmt_positions s) r) l ->
  exists r,
    emits (on_last _check_implicit_return l) r /\
    (is_nil l = false -> forallb well_formed l = true -> r <> IndexError) /\
    terminal_findings_ok (flat_map stmt_positions l) r.
Proof.
  induction 1 as [| x (r & Hr & Hwf & Hok) l Hall (rl & Hrl & Hwfl & Hokl)].
  - exists IndexError. split; [done |]. split; [done |]. by intros ds.
  - destruct l as [| y l'].
    + exists r. split; [exact Hr |]. split.
      * simpl. intros _ Hw. apply andb_true_iff in Hw as [Hw _]. auto.
      * intros ds Hds. destruct (Hok ds Hds) as [H1 H2]. split; [done |].
        simpl. by apply sublist_inserts_r.
    + exists rl. split; [exact Hrl |]. split.
      * intros _ Hw. change (forallb well_formed (x :: y :: l'))
          with (well_formed x && forallb well_formed (y :: l')) in Hw.
        apply andb_true_iff in Hw as [_ Hw]. by apply Hwfl.
      * intros ds Hds. destruct (Hokl ds Hds) as [H1 H2]. split; [done |].
        change (flat_map stmt_positions (x :: y :: l'))
          with (stmt_positions x ++ flat_map stmt_positions (y :: l')).
        by apply sublist_inserts_l.
Qed.

Lemma flag_ok (s : stmt) (rest : list position) :
  terminal_findings_ok ((stmt_lineno s, stmt_col_offset s) :: rest)
    (Done [Diag ImplicitReturn (stmt_lineno s) (stmt_col_offset s)]).
Proof.
  intros ds [= <-]. split.
  - by repeat constructor.
  - simpl. apply sublist_skip, sublist_nil_l.
Qed.

Lemma silent_ok (positions : list position) :
  terminal_findings_ok positions (Done []).
Proof. intros ds [= <-]. split; [constructor | apply sublist_nil_l]. Qed.

Lemma emits_flag (s : stmt) :
  emits (fun st => Done (error_from_node ImplicitReturn (stmt_lineno s)
                           (stmt_col_offset s) st))
    (Done [Diag ImplicitReturn (stmt_lineno s) (stmt_col_offset s)]).
Proof. by intros st. Qed.

Lemma emits_silent : emits (fun st => Done st) (Done []).
Proof. intros st. simpl. by rewrite emit_nil. Qed.

Lemma check_implicit_return_emits (s : stmt) :
  exists r,
    emits (_check_implicit_return s) r /\
    (well_formed s = true -> r <> IndexError) /\
    terminal_findings_ok (stmt_positions s) r.
Proof.
  induction s as
    [a args body Hb decs ret l c | r | targets rhs l c
    | test body Hb orelse Ho l c | a target iter body Hb orelse Ho l c e
    | test body Hb orelse Ho l c e | body Hb handlers Hh orelse Ho fin Hf l c e
    | type body Hb l c | a items body Hb l c | test msg l c | exc cause l c
    | exprs body Hb exprs' l c ].
  - eexists. split; [apply (emits_flag (FunctionDef a args body decs ret l c)) |].
    split; [done | apply flag_ok].
  - exists (Done []). split; [apply emits_silent |].
    split; [done | apply silent_ok].
  - eexists. split; [apply (emits_flag (Assign targets rhs l c)) |].
    split; [done | apply flag_ok].
  - destruct (is_nil body || is_nil orelse) eqn:Hnil.
    + eexists. split.
      * intros st. simpl. rewrite Hnil.
        apply (emits_flag (If test body orelse l c)).
      * split; [done | apply flag_ok].
    + apply orb_false_iff in Hnil as [Hnb Hno].
      destruct (on_last_emits body Hb) as (rb & Erb & Wrb & Orb).
      destruct (on_last_emits orelse Ho) as (ro & Ero & Wro & Oro).
      exists (x <~ rb;; y <~ ro;; Done (x ++ y)). split; [| split].
      * intros st. simpl. rewrite Hnb, Hno. simpl. rewrite (Erb st).
        destruct rb as [x |]; simpl; [| done]. rewrite (Ero (emit x st)).
        destruct ro as [y |]; simpl; [| done]. by rewrite emit_emit.
      * simpl. intros Hw. apply andb_true_iff in Hw as [Hw1 Hw2].
        specialize (Wrb Hnb Hw1). specialize (Wro Hno Hw2).
        destruct rb; [| done]. by destruct ro.
      * intros ds Hds. destruct rb as [x |]; [| done].
        destruct ro as [y |]; [| done]. simpl in Hds. injection Hds as <-.
        destruct (Orb x eq_refl) as [F1 S1].
        destruct (Oro y eq_refl) as [F2 S2]. split.
        -- by apply Forall_app.
        -- simpl. rewrite map_app. apply sublist_cons, sublist_inserts_l.
           by apply sublist_app.
  - destruct (is_nil orelse) eqn:Hno.
    + eexists. split.
      * intros st. simpl. rewrite Hno.
        apply (emits_flag (For a target iter body orelse l c e)).
      * split; [done | apply flag_ok].
    + destruct (on_last_emits orelse Ho) as (ro & Ero & Wro & Oro).
      exists ro. split; [| split].
      * intros st. simpl. rewrite Hno. apply Ero.
      * simpl. intros Hw. apply andb_true_iff in Hw as [_ Hw2]. auto.
      * intros ds Hds. destruct (Oro ds Hds) as [F S]. split; [done |].
        simpl. by apply sublist_cons; do 3 apply sublist_inserts_l.
  - exists (Done []). split; [apply emits_silent |].
    split; [done | apply silent_ok].
  - exists (Done []). split; [apply emits_silent |].
    split; [done | apply silent_ok].
  - eexists. split; [apply (emits_flag (ExceptHandler type body l c)) |].
    split; [done | apply flag_ok].
  - destruct (on_last_emits body Hb) as (rb & Erb & Wrb & Orb).
    exists rb. split; [| split].
    + intros st. simpl. apply Erb.
    + simpl. intros Hw. apply andb_true_iff in Hw as [Hn Hw].
      apply negb_true_iff in Hn. auto.
    + intros ds Hds. destruct (Orb ds Hds) as [F S]. split; [done |].
      simpl. by apply sublist_cons, sublist_inserts_l.
  - destruct (is_false test) eqn:Hf.
    + exists (Done []). split; [| split; [done | apply silent_ok]].
      intros st. simpl. rewrite Hf. apply emits_silent.
    + exists (Done [Diag ImplicitReturn l c]). split.
      * intros st. simpl. rewrite Hf. apply (emits_flag (Assert test msg l c)).
      * split; [done | apply (flag_ok (Assert test msg l c))].
  - exists (Done []). split; [apply emits_silent |].
    split; [done | apply silent_ok].
  - eexists. split; [apply (emits_flag (OtherStmt exprs body exprs' l c)) |].
    split; [done | apply flag_ok].
Qed.

Lemma list_all_intro {A} (P : A -> Prop) (l : list A) :
  (forall x, P x) -> list_all A P l.
Proof. intros HP. induction l; constructor; auto. Qed.

Lemma last_statement_emits (body : list stmt) :
  exists r,
    emits (on_last _check_implicit_return body) r /\
    (is_nil body = false -> forallb well_formed body = true ->
     r <> IndexError) /\
    terminal_findings_ok (flat_map stmt_positions body) r.
Proof.
  apply on_last_emits, list_all_intro, check_implicit_return_emits.
Qed.

Lemma emits_unique (check : Visitor -> result Visitor) r r' :
  emits check r -> emits check r' -> r = r'.
Proof.
  intros H H'. specialize (H initial). rewrite (H' initial) in H.
  destruct r as [ds |], r' as [ds' |]; simpl in H; try done.
  by injection H as ->.
Qed.

(** The assign check appends nothing, or the one finding at the name. *)
Lemma check_unnecessary_assign_emits (py38 : bool) (node : expr) (sc : Scope) :
  exists ds,
    (forall st rest, _stack st = rest ++ [sc] ->
       _check_unnecessary_assign py38 node st = Done (emit ds st)) /\
    (ds = [] \/
     exists x l c, node = Name x l c /\ ds = [Diag UnnecessaryAssign l c]).
Proof.
  destruct node as [x l c | | |];
    try (exists []; split; [intros st rest _; simpl; by rewrite emit_nil
                           | by left]).
  unfold _check_unnecessary_assign.
  destruct (negb (dict_mem x (assigns sc))) eqn:E1;
    [| destruct (negb (dict_mem x (refs sc))) eqn:E2;
       [| destruct (_has_refs_before_next_assign sc x l) eqn:E3;
          [| destruct (py38 && _has_refs_or_assigns_within_try_or_loop sc x)
               eqn:E4 ] ] ].
  all: first
    [ exists []; split; [| by left]; intros st rest Hst;
      rewrite (current_top _ _ _ Hst); simpl;
      rewrite ?E1, ?E2, ?E3, ?E4; simpl; by rewrite ?E4, emit_nil
    | exists [Diag UnnecessaryAssign l c]; split; [| right; by eauto];
      intros st rest Hst; rewrite (current_top _ _ _ Hst); simpl;
      rewrite ?E1, ?E2, ?E3, ?E4; simpl; by rewrite ?E4 ].
Qed.

Lemma check_unnecessary_assign_unique py38 v sc ds ds' :
  (forall st rest, _stack st = rest ++ [sc] ->
     _check_unnecessary_assign py38 v st = Done (emit ds st)) ->
  (forall st rest, _stack st = rest ++ [sc] ->
     _check_unnecessary_assign py38 v st = Done (emit ds' st)) ->
  ds = ds'.
Proof.
  intros H H'. specialize (H (visitor_at sc) [] eq_refl).
  rewrite (H' (visitor_at sc) [] eq_refl) in H. by injection H as ->.
Qed.

(** The loop closing [_check_function] appends, return by return, what
    the assign check finds at each value. *)
Lemma check_assigns_emit (py38 : bool) (sc : Scope) (rs : list return_node) :
  exists ua,
    (forall st rest, _stack st = rest ++ [sc] ->
       visit_list (check_assign_of py38) rs st = Done (emit ua st)) /\
    sublist ua (omap value_diag rs) /\
    (forall r v ds d,
       In r rs -> value r = Some v ->
       (forall st rest, _stack st = rest ++ [sc] ->
          _check_unnecessary_assign py38 v st = Done (emit ds st)) ->
       In d ds -> In d ua).
Proof.
  induction rs as [| r rs (ua & Hua & Hsub & Hcov)].
  - exists []. split; [| split; [constructor | by intros r v ds d []]].
    intros st rest _. simpl. by rewrite emit_nil.
  - destruct (value r) as [v |] eqn:Hv.
    + destruct (check_unnecessary_assign_emits py38 v sc)
        as (ds & Hds & Hshape).
      exists (ds ++ ua). split; [| split].
      * intros st rest Hst. simpl. unfold check_assign_of at 1.
        rewrite Hv, (Hds st rest Hst). simpl.
        rewrite (Hua (emit ds st) rest Hst). by rewrite emit_emit.
      * simpl. unfold value_diag at 1. rewrite Hv.
        destruct Hshape as [-> | (x & l & c & -> & ->)]; simpl.
        -- destruct v; simpl; try done. by apply sublist_cons.
        -- by apply sublist_skip.
      * intros r' v' ds' d [<- | Hin] Hv' Hds' Hd; apply in_or_app.
        -- left. rewrite Hv in Hv'. injection Hv' as <-.
           by rewrite (check_unnecessary_assign_unique _ _ _ _ _ Hds Hds').
        -- right. by eapply Hcov.
    + exists ua. split; [| split].
      * intros st rest Hst. simpl. unfold check_assign_of at 1.
        rewrite Hv. simpl. by apply (Hua st rest).
      * simpl. unfold value_diag at 1. by rewrite Hv.
      * intros r' v' ds' d [<- | Hin] Hv' Hds' Hd; [congruence |].
        by eapply Hcov.
Qed.

(** [_check_function], branch by branch, as appended findings. *)
Lemma check_function_unfold (py38 : bool) (body : list stmt) (sc : Scope) :
  exists ua,
    sublist ua (omap value_diag (returns sc)) /\
    (forall r v ds d,
       In r (returns sc) -> value r = Some v ->
       (forall st rest, _stack st = rest ++ [sc] ->
          _check_unnecessary_assign py38 v st = Done (emit ds st)) ->
       In d ds -> In d ua) /\
    forall st rest, _stack st = rest ++ [sc] ->
      _check_function py38 body st =
        if is_nil (returns sc) || is_nil body then Done st
        else if only_return body then Done st
        else if negb (_result_exists sc)
        then Done (emit (map (diag_at UnnecessaryReturnNone)
                      (List.filter (fun r => is_none (value r)) (returns sc)))
                    st)
        else
          st2 <~ on_last _check_implicit_return body
                   (emit (map (diag_at ImplicitReturnValue)
                            (List.filter is_bare (returns sc))) st);;
          Done (emit ua st2).
Proof.
  destruct (check_assigns_emit py38 sc (returns sc))
    as (ua & Hua & Hsub & Hcov).
  exists ua. split; [done |]. split; [done |]. intros st rest Hst.
  unfold _check_function. rewrite (current_top _ _ _ Hst). simpl.
  destruct (is_nil (returns sc) || is_nil body); [done |].
  destruct (only_return body); [done |].
  destruct (negb (_result_exists sc)).
  - unfold _check_unnecessary_return_none.
    rewrite (current_top _ _ _ Hst). simpl. by rewrite fold_return_none.
  - unfold _check_implicit_return_value.
    rewrite (current_top _ _ _ Hst). simpl. rewrite fold_implicit_value.
    destruct (last_statement_emits body) as (r & Hr & _).
    rewrite (Hr (emit _ st)). destruct r as [ir |]; simpl; [| done].
    rewrite (Hua (emit ir (emit _ st)) rest); [done | exact Hst].
Qed.

(** ** Findings by class *)

Lemma of_kind_app k a b : of_kind k (a ++ b) = of_kind k a ++ of_kind k b.
Proof. unfold of_kind. apply List.filter_app. Qed.


Lemma of_kind_none k k' ds :
  error_class_eqb k' k = false ->
  Forall (fun d => kind d = k') ds -> of_kind k ds = [].
Proof.
  intros Hne. induction 1 as [| d ds Hd _ IH]; [done |].
  unfold of_kind in *. simpl. by rewrite Hd, Hne, IH.
Qed.

Lemma diag_at_kind k rs : Forall (fun d => kind d = k) (map (diag_at k) rs).
Proof. induction rs; by constructor. Qed.

Lemma value_diag_kind ua rs :
  sublist ua (omap value_diag rs) ->
  Forall (fun d => kind d = UnnecessaryAssign) ua.
Proof.
  intros Hsub. apply Forall_forall. intros d Hd.
  apply (fun H => elem_of_sublist _ _ _ H Hsub), list_elem_of_omap in Hd
    as (r & _ & Hr).
  unfold value_diag in Hr. destruct (value r) as [[] |]; try done.
  by injection Hr as <-.
Qed.

Lemma result_exists_nonempty sc :
  _result_exists sc = true -> is_nil (returns sc) = false.
Proof. unfold _result_exists. by destruct (returns sc). Qed.


(** ** The dispatch in [_check_function] *)

(** C2.  The findings [_check_function] appends for one scope never hold
    both classes: when some [Return] of the scope carries a value other
    than the [None] literal there is no [UnnecessaryReturnNone] among
    them, and otherwise there is no [ImplicitReturnValue]. *)
Theorem none_and_value_exclusive (py38 : bool) (body : list stmt)
    (st : Visitor) (rest : list Scope) (sc : Scope) :
  _stack st = rest ++ [sc] ->
  forallb well_formed body = true ->
  exists new,
    _check_function py38 body st = Done (emit new st) /\
    (_result_exists sc = true -> of_kind UnnecessaryReturnNone new = []) /\
    (_result_exists sc = false -> of_kind ImplicitReturnValue new = []).
Proof.
  intros Hst Hwf.
  destruct (check_function_unfold py38 body sc) as (ua & Hsub & _ & Heq).
  rewrite (Heq st rest Hst).
  destruct (is_nil (returns sc) || is_nil body) eqn:Hnil;
    [exists []; by rewrite emit_nil |].
  destruct (only_return body); [exists []; by rewrite emit_nil |].
  apply orb_false_iff in Hnil as [_ Hbody].
  destruct (_result_exists sc) eqn:Hres; simpl.
  - destruct (last_statement_emits body) as (r & Hr & Hwfr & Hok).
    rewrite (Hr (emit _ st)). specialize (Hwfr Hbody Hwf).
    destruct r as [ir |]; [| done]. simpl.
    destruct (Hok ir eq_refl) as [Hir _].
    eexists. split; [by rewrite !emit_emit |]. split; [| done].
    intros _. rewrite !of_kind_app.
    rewrite (of_kind_none _ ImplicitReturnValue), (of_kind_none _ ImplicitReturn),
      (of_kind_none _ UnnecessaryAssign);
      eauto using diag_at_kind, value_diag_kind.
  - eexists. split; [done |]. split; [done |]. intros _.
    eapply of_kind_none; [| apply diag_at_kind]. done.
Qed.

Lemma none_and_value_exclusive_witness :
  exists new,
    _check_function true [if_without_else; Return (ReturnNode None 4 4)]
      (visitor_at scope_valued_then_bare)
    = Done (emit new (visitor_at scope_valued_then_bare)) /\
    (_result_exists scope_valued_then_bare = true ->
     of_kind UnnecessaryReturnNone new = []) /\
    (_result_exists scope_valued_then_bare = false ->
     of_kind ImplicitReturnValue new = []).
Proof.
  apply (none_and_value_exclusive true _ _ []); reflexivity.
Defined.

(** The two [None]-valued returns of [def f(): return None; return None]
    each get [UnnecessaryReturnNone], and nothing else is found. *)
Example run_two_return_none (py38 : bool) :
  exists st,
    run py38 [ FunctionDef false []
                 [ Return (ReturnNode (Some (Constant CNone 2 11)) 2 4);
                   Return (ReturnNode (Some (Constant CNone 3 11)) 3 4) ]
                 [] None 1 0 ] = Done st /\
    errors st = [ Diag UnnecessaryReturnNone 2 4;
                  Diag UnnecessaryReturnNone 3 4 ].
Proof. destruct py38; eexists; split; vm_compute; reflexivity. Qed.



(** The whole run on [def f(): if c: return 1; return]: one finding, the
    [ImplicitReturnValue] at the bare return. *)
Example run_valued_then_bare (py38 : bool) :
  exists st, run py38 [valued_then_bare] = Done st
             /\ errors st = [Diag ImplicitReturnValue 4 4].
Proof. destruct py38; eexists; split; vm_compute; reflexivity. Qed.

Lemma only_return_snoc_if body0 test b o l c :
  only_return (body0 ++ [If test b o l c]) = false.
Proof. unfold only_return. rewrite last_snoc. apply andb_false_r. Qed.

Lemma is_nil_snoc {A} (l : list A) x : is_nil (l ++ [x]) = false.
Proof. by destruct l. Qed.

(** C5.  The function's last top-level statement is an [If] and some
    [Return] of the scope carries a value other than the [None] literal.
    With the consequent or the alternative absent, the function gets
    exactly one [ImplicitReturn], at the [If] itself.  With both present,
    the check of the [If] is the check of the last statement of the
    consequent followed by that of the alternative; so when both end in a
    [Return] the function gets no [ImplicitReturn]. *)
Theorem trailing_if_checked (py38 : bool) (st : Visitor) (rest : list Scope)
    (sc : Scope) (body0 : list stmt) (test : expr) (b o : list stmt)
    (l c : Z) :
  _stack st = rest ++ [sc] ->
  _result_exists sc = true ->
  (b = [] \/ o = [] ->
   exists new,
     _check_function py38 (body0 ++ [If test b o l c]) st
     = Done (emit new st) /\
     of_kind ImplicitReturn new = [Diag ImplicitReturn l c]) /\
  (b <> [] -> o <> [] ->
   forall st0,
     _check_implicit_return (If test b o l c) st0
     = (st1 <~ on_last _check_implicit_return b st0;;
        on_last _check_implicit_return o st1)) /\
  (forall b0 rb o0 ro,
     b = b0 ++ [Return rb] -> o = o0 ++ [Return ro] ->
     exists new,
       _check_function py38 (body0 ++ [If test b o l c]) st
       = Done (emit new st) /\
       of_kind ImplicitReturn new = []).
Proof.
  intros Hst Hres.
  destruct (check_function_unfold py38 (body0 ++ [If test b o l c]) sc)
    as (ua & Hsub & _ & Heq).
  specialize (Heq st rest Hst).
  rewrite (result_exists_nonempty _ Hres), is_nil_snoc,
    only_return_snoc_if, Hres, on_last_snoc in Heq.
  simpl negb in Heq. simpl orb in Heq. cbv iota in Heq.
  split; [| split].
  - intros Hnil. rewrite Heq.
    assert (is_nil b || is_nil o = true) as Hor.
    { destruct Hnil as [-> | ->]; [done | apply orb_true_r]. }
    simpl. rewrite Hor. simpl. rewrite error_from_node_emit.
    eexists. split; [by rewrite !emit_emit |].
    rewrite !of_kind_app.
    rewrite (of_kind_none _ ImplicitReturnValue (map _ _)),
      (of_kind_none _ UnnecessaryAssign ua);
      eauto using diag_at_kind, value_diag_kind.
  - intros Hb Ho st0. simpl.
    destruct b; [done |]. by destruct o.
  - intros b0 rb o0 ro -> ->. rewrite Heq. simpl.
    rewrite !is_nil_snoc. simpl.
    rewrite on_last_snoc. simpl. rewrite on_last_snoc. simpl.
    eexists. split; [by rewrite !emit_emit; rewrite ?app_nil_r |].
    rewrite !of_kind_app.
    rewrite (of_kind_none _ ImplicitReturnValue (map _ _)),
      (of_kind_none _ UnnecessaryAssign ua);
      eauto using diag_at_kind, value_diag_kind.
Qed.

Lemma trailing_if_checked_witness :
  (exists new,
     _check_function true ([] ++ [if_without_else]) (visitor_at scope_one_return)
     = Done (emit new (visitor_at scope_one_return)) /\
     of_kind ImplicitReturn new = [Diag ImplicitReturn 2 4]) /\
  (exists new,
     _check_function true ([] ++ [if_with_else]) (visitor_at scope_two_returns)
     = Done (emit new (visitor_at scope_two_returns)) /\
     of_kind ImplicitReturn new = []).
Proof.
  split.
  - refine (proj1 (trailing_if_checked true (visitor_at scope_one_return) []
                     scope_one_return [] _ _ _ 2 4 eq_refl eq_refl) _).
    by right.
  - refine (proj2 (proj2 (trailing_if_checked true
                     (visitor_at scope_two_returns) [] scope_two_returns []
                     _ _ _ 2 4 eq_refl eq_refl)) [] _ [] _ eq_refl eq_refl).
Defined.

(** The whole runs on the two samples of the specification. *)
Example run_if_without_else (py38 : bool) :
  exists st,
    run py38 [FunctionDef false [] [if_without_else] [] None 1 0] = Done st
    /\ errors st = [Diag ImplicitReturn 2 4].
Proof. destruct py38; eexists; split; vm_compute; reflexivity. Qed.

Example run_if_with_else (py38 : bool) :
  exists st,
    run py38 [FunctionDef false [] [if_with_else] [] None 1 0] = Done st
    /\ errors st = [].
Proof. destruct py38; eexists; split; vm_compute; reflexivity. Qed.

(** ** Order of the findings *)




(** ** The walk *)

Lemma scope_grows_refl py38 sc : scope_grows py38 sc sc.
Proof.
  split; [done |]. split; [| done].
  exists []. split; [by rewrite app_nil_r | done].
Qed.

Lemma scope_grows_trans py38 sc1 sc2 sc3 :
  scope_grows py38 sc1 sc2 -> scope_grows py38 sc2 sc3 ->
  scope_grows py38 sc1 sc3.
Proof.
  intros (R1 & (n1 & E1 & N1) & S1) (R2 & (n2 & E2 & N2) & S2).
  split; [by auto |]. split.
  - exists (n1 ++ n2). split; [by rewrite E2, E1, app_assoc |].
    intros r x l c Hin Hv. apply in_app_or in Hin as [Hin | Hin]; eauto.
  - intros Hpy. destruct (S1 Hpy) as [A B], (S2 Hpy) as [C D].
    split; congruence.
Qed.

Lemma walked_refl py38 st : walked py38 [] st st.
Proof.
  split; [by rewrite app_nil_r |]. split; [done |]. split; [done |].
  intros rest sc Hst. exists sc. split; [done | apply scope_grows_refl].
Qed.

Lemma walked_trans py38 n1 n2 st1 st2 st3 :
  walked py38 n1 st1 st2 -> walked py38 n2 st2 st3 ->
  walked py38 (n1 ++ n2) st1 st3.
Proof.
  intros (E1 & L1 & N1 & F1) (E2 & L2 & N2 & F2).
  split; [by rewrite E2, E1, app_assoc |]. split; [congruence |].
  split; [by auto |].
  intros rest sc Hst. destruct (F1 rest sc Hst) as (sc2 & Hst2 & G1).
  destruct (F2 rest sc2 Hst2) as (sc3 & Hst3 & G2).
  exists sc3. split; [done |]. by eapply scope_grows_trans.
Qed.

Lemma walked_nonempty py38 new st st' :
  walked py38 new st st' -> stack_nonempty st' = stack_nonempty st.
Proof.
  intros (_ & _ & N & F). unfold stack_nonempty.
  destruct (_stack st) as [| a l] eqn:Hst using rev_ind.
  - by rewrite (N eq_refl).
  - destruct (F l a eq_refl) as (sc' & -> & _).
    by destruct l.
Qed.

Lemma stack_cases st :
  _stack st = [] \/ exists rest sc, _stack st = rest ++ [sc].
Proof.
  destruct (_stack st) as [| a l _] using rev_ind; [by left |].
  right. by eauto.
Qed.

Lemma dict_get_append x k v d :
  dict_get x (dict_append k v d)
  = if decide (k = x) then dict_get x d ++ [v] else dict_get x d.
Proof.
  unfold dict_get, dict_append. rewrite lookup_insert.
  by destruct (decide (k = x)) as [-> |].
Qed.

Lemma dict_get_append_grows x l k v d :
  In l (dict_get x d) -> In l (dict_get x (dict_append k v d)).
Proof.
  rewrite dict_get_append. destruct (decide (k = x)); [| done].
  intros H. apply in_or_app. by left.
Qed.

Lemma dict_get_append_here k v d : In v (dict_get k (dict_append k v d)).
Proof.
  rewrite dict_get_append. rewrite decide_True by done.
  apply in_or_app. right. by left.
Qed.

(** An update of the current scope that lets it grow is a quiet step. *)
Lemma update_current_walked py38 f st rest sc :
  _stack st = rest ++ [sc] ->
  scope_grows py38 sc (f sc) ->
  exists st', update_current f st = Done st' /\ walked py38 [] st st' /\
              _stack st' = rest ++ [f sc].
Proof.
  intros Hst Hg. rewrite (update_current_top _ _ _ _ Hst).
  eexists. split; [done |]. split; [| done].
  split; [simpl; by rewrite app_nil_r |]. split; [done |].
  split; [intros H; rewrite H in Hst; by destruct rest |].
  intros rest' sc0 Hst'. rewrite Hst' in Hst.
  apply app_inj_tail in Hst as [-> ->]. simpl. by eauto.
Qed.

Lemma append_ref_grows py38 id l sc :
  scope_grows py38 sc
    {| assigns := assigns sc; refs := dict_append id l (refs sc);
       tries := tries sc; loops := loops sc; returns := returns sc |}.
Proof.
  split; [intros x l0; apply dict_get_append_grows |]. split; [| done].
  exists []. simpl. split; [by rewrite app_nil_r | done].
Qed.

Lemma append_assign_grows py38 id l sc :
  scope_grows py38 sc
    {| assigns := dict_append id l (assigns sc); refs := refs sc;
       tries := tries sc; loops := loops sc; returns := returns sc |}.
Proof.
  split; [done |]. split; [| done].
  exists []. simpl. split; [by rewrite app_nil_r | done].
Qed.

Lemma visit_Name_quiet py38 id l : quiet py38 (visit_Name id l).
Proof.
  intros st. unfold visit_Name.
  destruct (stack_cases st) as [Hst | (rest & sc & Hst)].
  - rewrite (stack_nonempty_empty _ Hst). eauto using walked_refl.
  - rewrite (stack_nonempty_top _ _ _ Hst). unfold append_ref.
    match goal with
    | |- context [update_current ?f st] =>
        destruct (update_current_walked py38 f st rest sc Hst
                    (append_ref_grows py38 id l sc)) as (st' & H1 & H2 & _)
    end.
    by eauto.
Qed.

Lemma quiet_done py38 : quiet py38 (fun st => Done st).
Proof. intros st. eauto using walked_refl. Qed.

Lemma quiet_seq py38 c1 c2 :
  quiet py38 c1 -> quiet py38 c2 ->
  quiet py38 (fun st => st1 <~ c1 st;; c2 st1).
Proof.
  intros H1 H2 st. destruct (H1 st) as (st1 & E1 & W1).
  destruct (H2 st1) as (st2 & E2 & W2).
  exists st2. rewrite E1. simpl. split; [done |].
  by apply (walked_trans py38 [] [] st st1 st2).
Qed.

Lemma quiet_list py38 {A} (visit : A -> Visitor -> result Visitor)
    (l : list A) :
  list_all A (fun x => quiet py38 (visit x)) l ->
  quiet py38 (visit_list visit l).
Proof.
  induction 1 as [| x Hx l _ IH]; [apply quiet_done |].
  apply (quiet_seq py38 (visit x) (visit_list visit l)); done.
Qed.

Lemma visit_expr_quiet py38 (e : expr) : quiet py38 (visit_expr e).
Proof.
  induction e as [id l c | v l c | elts IH l c | children IH l c].
  - apply visit_Name_quiet.
  - apply quiet_done.
  - by apply quiet_list.
  - by apply quiet_list.
Qed.

Lemma visit_exprs_quiet py38 (l : list expr) :
  quiet py38 (visit_list visit_expr l).
Proof. apply quiet_list, list_all_intro, visit_expr_quiet. Qed.

Lemma visit_opt_quiet py38 (o : option expr) :
  quiet py38 (visit_opt visit_expr o).
Proof. destruct o; [apply visit_expr_quiet | apply quiet_done]. Qed.

Lemma generic_visit_expr_quiet py38 (e : expr) :
  quiet py38 (generic_visit_expr e).
Proof.
  destruct e; try apply quiet_done; apply visit_exprs_quiet.
Qed.

Lemma quiet_is_open py38 c : quiet py38 c -> quiet_open py38 c.
Proof. intros H st _. apply H. Qed.

Lemma quiet_open_seq py38 c1 c2 :
  quiet_open py38 c1 -> quiet_open py38 c2 ->
  quiet_open py38 (fun st => st1 <~ c1 st;; c2 st1).
Proof.
  intros H1 H2 st Hne. destruct (H1 st Hne) as (st1 & E1 & W1).
  destruct (H2 st1) as (st2 & E2 & W2).
  { by rewrite (walked_nonempty _ _ _ _ W1). }
  exists st2. rewrite E1. simpl. split; [done |].
  by apply (walked_trans py38 [] [] st st1 st2).
Qed.

Lemma quiet_open_list py38 {A} (visit : A -> Visitor -> result Visitor)
    (l : list A) :
  list_all A (fun x => quiet_open py38 (visit x)) l ->
  quiet_open py38 (visit_list visit l).
Proof.
  induction 1 as [| x Hx l _ IH]; [apply quiet_is_open, quiet_done |].
  apply (quiet_open_seq py38 (visit x) (visit_list visit l)); done.
Qed.

Lemma append_ref_open py38 id l : quiet_open py38 (append_ref id l).
Proof.
  intros st Hne. destruct (stack_cases st) as [Hst | (rest & sc & Hst)].
  - by rewrite (stack_nonempty_empty _ Hst) in Hne.
  - unfold append_ref.
    match goal with
    | |- context [update_current ?f st] =>
        destruct (update_current_walked py38 f st rest sc Hst
                    (append_ref_grows py38 id l sc)) as (st' & H1 & H2 & _)
    end.
    by eauto.
Qed.

Lemma append_assign_open py38 id l : quiet_open py38 (append_assign id l).
Proof.
  intros st Hne. destruct (stack_cases st) as [Hst | (rest & sc & Hst)].
  - by rewrite (stack_nonempty_empty _ Hst) in Hne.
  - unfold append_assign.
    match goal with
    | |- context [update_current ?f st] =>
        destruct (update_current_walked py38 f st rest sc Hst
                    (append_assign_grows py38 id l sc)) as (st' & H1 & H2 & _)
    end.
    by eauto.
Qed.

Lemma visit_assign_target_open py38 (node : expr) :
  quiet_open py38 (_visit_assign_target py38 node).
Proof.
  induction node as [id l c | v l c | elts IH l c | children IH l c].
  - intros st Hne. simpl.
    destruct (py38 || (_loop_count st =? 0)).
    + by apply append_assign_open.
    + eauto using walked_refl.
  - apply quiet_is_open, quiet_done.
  - by apply quiet_open_list.
  - apply quiet_is_open, visit_exprs_quiet.
Qed.

(** [visit_Assign]: ignored at module level, raising on an assignment
    without target, and otherwise a quiet step. *)
Lemma visit_Assign_cases py38 targets rhs st :
  (stack_nonempty st = false /\ visit_Assign py38 targets rhs st = Done st) \/
  (stack_nonempty st = true /\ targets = [] /\
   visit_Assign py38 targets rhs st = IndexError) \/
  (stack_nonempty st = true /\ targets <> [] /\
   exists st', visit_Assign py38 targets rhs st = Done st' /\
               walked py38 [] st st').
Proof.
  unfold visit_Assign. destruct (stack_nonempty st) eqn:Hne; [| by left].
  right. simpl.
  assert (quiet_open py38 (fun st0 =>
            st1 <~ match rhs with
                   | Name id l _ => append_ref id l st0
                   | _ => Done st0
                   end;; generic_visit_expr rhs st1)) as Hrhs.
  { apply quiet_open_seq.
    - destruct rhs; try apply quiet_is_open, quiet_done.
      apply append_ref_open.
    - apply quiet_is_open, generic_visit_expr_quiet. }
  destruct (Hrhs st Hne) as (st2 & E2 & W2).
  destruct (match rhs with
            | Name id l _ => append_ref id l st
            | _ => Done st
            end) as [st1 |]; simpl in E2; [| done].
  simpl. rewrite E2. simpl.
  destruct targets as [| target targets']; [by left |].
  right. split; [done |]. split; [done |].
  assert (stack_nonempty st2 = true) as Hne2
    by (by rewrite (walked_nonempty _ _ _ _ W2)).
  destruct (visit_assign_target_open py38 target st2 Hne2)
    as (st3 & E3 & W3).
  assert (walked py38 [] st st3) as W
    by apply (walked_trans py38 [] [] st st2 st3 W2 W3).
  destruct target; destruct rhs; eauto.
Qed.

(** [visit_Return] when a scope is open. *)
Lemma visit_Return_open py38 (r : return_node) :
  quiet_open py38 (visit_stmt py38 (Return r)).
Proof.
  intros st Hne. destruct (stack_cases st) as [Hst | (rest & sc & Hst)].
  { by rewrite (stack_nonempty_empty _ Hst) in Hne. }
  simpl. unfold append_return.
  rewrite (update_current_top _ _ _ _ Hst). simpl.
  set (sc1 := {| assigns := assigns sc; refs := refs sc; tries := tries sc;
                 loops := loops sc; returns := returns sc ++ [r] |}).
  set (st1 := {| _stack := rest ++ [sc1]; errors := errors st;
                 _loop_count := _loop_count st |}).
  assert (forall sc', scope_grows py38 sc1 sc' ->
            (forall x l c, value r = Some (Name x l c) ->
                           In l (dict_get x (refs sc'))) ->
            scope_grows py38 sc sc') as Hgrow.
  { intros sc' (R & (new & E & N) & S) Hr. split; [done |]. split; [| done].
    exists (r :: new). split; [by rewrite E; simpl; rewrite <- app_assoc |].
    intros r' x l c [<- | Hin] Hv; eauto. }
  destruct (value r) as [[x l c | | |] |] eqn:Hv.
  1: { simpl. unfold visit_Name.
    assert (_stack st1 = rest ++ [sc1]) as Hst1 by done.
    rewrite (stack_nonempty_top _ _ _ Hst1). unfold append_ref.
    rewrite (update_current_top _ _ _ _ Hst1).
    eexists. split; [done |].
    split; [simpl; by rewrite app_nil_r |]. split; [done |].
    split; [intros H; rewrite H in Hst; by destruct rest |].
    intros rest' sc0 Hst'. rewrite Hst' in Hst.
    apply app_inj_tail in Hst as [-> ->]. simpl.
    eexists. split; [done |]. apply Hgrow.
    + exact (append_ref_grows py38 x l sc1).
    + intros x' l' c' [= <- <- <-]. simpl. apply dict_get_append_here. }
  all: match goal with
    | |- exists st', visit_opt visit_expr ?o ?s1 = Done st' /\ _ =>
        destruct (visit_opt_quiet py38 o s1) as (st' & E & W)
    end.
  all: exists st'; split; [done |].
  all: destruct W as (We & Wl & Wn & Wf).
  all: (split; [by rewrite We |]); (split; [done |]).
  all: (split; [intros H; rewrite H in Hst; by destruct rest |]).
  all: intros rest' sc0 Hst'; rewrite Hst' in Hst;
    apply app_inj_tail in Hst as [-> ->].
  all: destruct (Wf rest sc1 eq_refl) as (sc' & Hst'' & G).
  all: exists sc'; split; [done |]; by apply Hgrow.
Qed.

Lemma behaves_quiet py38 c : quiet py38 c -> behaves py38 c true true.
Proof.
  intros H. split; [| split]; [| | done].
  - intros st st' E. destruct (H st) as (st0 & E0 & W).
    rewrite E in E0. injection E0 as <-. by eauto.
  - intros _ st _. destruct (H st) as (st0 & E0 & _). by eauto.
Qed.

Lemma behaves_ext py38 c wf g wf' g' :
  behaves py38 c wf g -> wf' = wf -> g' = g -> behaves py38 c wf' g'.
Proof. by intros H -> ->. Qed.

Lemma behaves_seq py38 c1 c2 wf1 g1 wf2 g2 :
  behaves py38 c1 wf1 g1 -> behaves py38 c2 wf2 g2 ->
  behaves py38 (fun st => st1 <~ c1 st;; c2 st1) (wf1 && wf2) (g1 && g2).
Proof.
  intros (S1 & T1 & F1) (S2 & T2 & F2). split; [| split].
  - intros st st' E. destruct (c1 st) as [st1 |] eqn:E1; [| done].
    simpl in E. destruct (S1 _ _ E1) as (n1 & W1).
    destruct (S2 _ _ E) as (n2 & W2).
    exists (n1 ++ n2). by eapply walked_trans.
  - intros Hwf st Hst. apply andb_true_iff in Hwf as [Hw1 Hw2].
    destruct (T1 Hw1 st) as (st1 & E1).
    { destruct Hst as [H | H]; [by left |].
      apply andb_true_iff in H as [H _]. by right. }
    rewrite E1. simpl. destruct (S1 _ _ E1) as (n1 & W1).
    apply (T2 Hw2 st1). rewrite (walked_nonempty _ _ _ _ W1).
    destruct Hst as [H | H]; [by left |].
    apply andb_true_iff in H as [_ H]. by right.
  - intros Hg st Hst. destruct g1.
    + simpl in Hg. destruct (c1 st) as [st1 |] eqn:E1; [| done]. simpl.
      destruct (S1 _ _ E1) as (n1 & _ & _ & N & _). by apply F2, N.
    + by rewrite (F1 eq_refl st Hst).
Qed.

Lemma behaves_list py38 (l : list stmt) :
  list_all stmt (fun s => behaves py38 (visit_stmt py38 s) (well_formed s)
                            (returns_in_functions s)) l ->
  behaves py38 (visit_list (visit_stmt py38) l) (forallb well_formed l)
    (forallb returns_in_functions l).
Proof.
  induction 1 as [| x Hx l _ IH]; [apply behaves_quiet, quiet_done |].
  apply (behaves_seq py38 (visit_stmt py38 x)
           (visit_list (visit_stmt py38) l)); done.
Qed.

Lemma record_try_quiet py38 l e : quiet py38 (record_try py38 l e).
Proof.
  intros st. unfold record_try. destruct py38; [| eauto using walked_refl].
  destruct (stack_cases st) as [Hst | (rest & sc & Hst)].
  - rewrite (stack_nonempty_empty _ Hst). eauto using walked_refl.
  - rewrite (stack_nonempty_top _ _ _ Hst).
    destruct e as [e |]; [| eauto using walked_refl]. unfold set_try.
    match goal with
    | |- context [update_current ?f st] =>
        destruct (update_current_walked true f st rest sc Hst)
          as (st' & H1 & H2 & _)
    end; [| by eauto].
    split; [done |]. split; [| done].
    exists []. simpl. split; [by rewrite app_nil_r | done].
Qed.

Lemma record_loop_quiet l e : quiet true (record_loop l e).
Proof.
  intros st. unfold record_loop.
  destruct (stack_cases st) as [Hst | (rest & sc & Hst)].
  - rewrite (stack_nonempty_empty _ Hst). eauto using walked_refl.
  - rewrite (stack_nonempty_top _ _ _ Hst).
    destruct e as [e |]; [| eauto using walked_refl]. unfold set_loop.
    match goal with
    | |- context [update_current ?f st] =>
        destruct (update_current_walked true f st rest sc Hst)
          as (st' & H1 & H2 & _)
    end; [| by eauto].
    split; [done |]. split; [| done].
    exists []. simpl. split; [by rewrite app_nil_r | done].
Qed.

(** Counting the loop up before its children and down after them leaves
    the walk as it is for every other field. *)
Lemma walked_loop_count py38 new st st1 n :
  walked py38 new (set_loop_count n st) st1 ->
  walked py38 new st (set_loop_count (_loop_count st) st1).
Proof. intros (E & L & N & F). by repeat split. Qed.

Lemma behaves_loop py38 l e c wf g :
  behaves py38 c wf g -> behaves py38 (_visit_loop py38 l e c) wf g.
Proof.
  intros Hc. unfold _visit_loop. destruct py38.
  - eapply behaves_ext;
      [apply (behaves_seq true (record_loop l e) c true true wf g);
       [apply behaves_quiet, record_loop_quiet | exact Hc] | done | done].
  - destruct Hc as (S & T & F). split; [| split].
    + intros st st' E.
      destruct (c (set_loop_count (_loop_count st + 1) st)) as [st1 |] eqn:E1;
        [| done].
      simpl in E. injection E as <-. destruct (S _ _ E1) as (new & W).
      exists new. apply walked_loop_count in W.
      destruct W as (We & Wl & Wn & Wf). repeat split; try done.
      simpl. destruct (S _ _ E1) as (new' & _ & L' & _). rewrite L'. simpl. lia.
    + intros Hwf st Hst.
      destruct (T Hwf (set_loop_count (_loop_count st + 1) st) Hst)
        as (st1 & E1).
      rewrite E1. simpl. by eauto.
    + intros Hg st Hst.
      by rewrite (F Hg (set_loop_count (_loop_count st + 1) st) Hst).
Qed.

Lemma pop_top st rest sc :
  _stack st = rest ++ [sc] ->
  pop st = Done {| _stack := rest; errors := errors st;
                   _loop_count := _loop_count st |}.
Proof.
  intros H. unfold pop. rewrite H, removelast_last. by destruct rest.
Qed.

Lemma check_function_done py38 body st st' rest sc :
  _stack st = rest ++ [sc] ->
  _check_function py38 body st = Done st' ->
  exists own, st' = emit own st.
Proof.
  intros Hst. destruct (check_function_unfold py38 body sc) as (ua & _ & _ & Heq).
  rewrite (Heq st rest Hst).
  destruct (is_nil (returns sc) || is_nil body);
    [intros [= <-]; exists []; by rewrite emit_nil |].
  destruct (only_return body);
    [intros [= <-]; exists []; by rewrite emit_nil |].
  destruct (negb (_result_exists sc)); [intros [= <-]; by eauto |].
  destruct (last_statement_emits body) as (r & Hr & _).
  rewrite (Hr (emit _ st)). destruct r as [ir |]; simpl; [| done].
  intros [= <-]. rewrite !emit_emit. by eauto.
Qed.

Lemma check_function_total py38 body st rest sc :
  _stack st = rest ++ [sc] ->
  forallb well_formed body = true ->
  exists own, _check_function py38 body st = Done (emit own st).
Proof.
  intros Hst Hwf.
  destruct (check_function_unfold py38 body sc) as (ua & _ & _ & Heq).
  rewrite (Heq st rest Hst).
  destruct (is_nil (returns sc) || is_nil body) eqn:Hnil;
    [exists []; by rewrite emit_nil |].
  destruct (only_return body); [exists []; by rewrite emit_nil |].
  destruct (negb (_result_exists sc)); [by eauto |].
  apply orb_false_iff in Hnil as [_ Hbody].
  destruct (last_statement_emits body) as (r & Hr & Hwfr & _).
  rewrite (Hr (emit _ st)). specialize (Hwfr Hbody Hwf).
  destruct r as [ir |]; [| done]. simpl. rewrite !emit_emit. by eauto.
Qed.

(** The scope of a function, once its children have been visited. *)
Lemma walked_from_push py38 inner st st4 :
  walked py38 inner (push st) st4 ->
  exists sc,
    _stack st4 = _stack st ++ [sc] /\ recorded_scope py38 sc /\
    errors st4 = errors st ++ inner /\ _loop_count st4 = _loop_count st.
Proof.
  intros (E & L & _ & F).
  destruct (F (_stack st) empty_scope eq_refl)
    as (sc & Hst & _ & (new & Hnew & Hrefs) & Hspans).
  exists sc. repeat split; try done.
  - intros r x l c Hin. rewrite Hnew in Hin. simpl in Hin. by eauto.
  - by apply Hspans.
  - by apply Hspans.
Qed.

Lemma visit_FunctionDef_eq py38 a args body decs ret l c st :
  visit_stmt py38 (FunctionDef a args body decs ret l c) st
  = (st4 <~ walk_function py38 args body decs ret st;;
     st5 <~ _check_function py38 body st4;;
     pop st5).
Proof.
  simpl. unfold walk_function.
  destruct (visit_list visit_expr args (push st)) as [st1 |]; [| done].
  simpl. destruct (visit_list (visit_stmt py38) body st1) as [st2 |];
    [| done].
  simpl. by destruct (visit_list visit_expr decs st2) as [st3 |].
Qed.

Lemma walk_function_behaves py38 args body decs ret :
  behaves py38 (visit_list (visit_stmt py38) body) (forallb well_formed body)
    (forallb returns_in_functions body) ->
  (forall st st4, walk_function py38 args body decs ret st = Done st4 ->
     exists inner, walked py38 inner (push st) st4) /\
  (forallb well_formed body = true ->
   forall st, exists st4, walk_function py38 args body decs ret st = Done st4).
Proof.
  intros Hb.
  pose proof (behaves_seq py38 _ _ _ _ _ _
    (behaves_quiet py38 _ (visit_exprs_quiet py38 args))
    (behaves_seq py38 _ _ _ _ _ _ Hb
       (behaves_seq py38 _ _ _ _ _ _
          (behaves_quiet py38 _ (visit_exprs_quiet py38 decs))
          (behaves_quiet py38 _ (visit_opt_quiet py38 ret)))))
    as (S & T & _).
  split.
  - intros st st4 E. exact (S (push st) st4 E).
  - intros Hwf st. apply (T ltac:(simpl; by rewrite Hwf) (push st)).
    left. unfold stack_nonempty, push. simpl. by destruct (_stack st).
Qed.

(** A function definition, start to end: its children are visited in a
    fresh scope and may append the findings [inner] of nested functions;
    the checks then read a recorded scope and append [own]; the scope is
    popped, and nothing else of the visitor has changed. *)
Lemma visit_FunctionDef_run py38 a args body decs ret l c st st' :
  behaves py38 (visit_list (visit_stmt py38) body) (forallb well_formed body)
    (forallb returns_in_functions body) ->
  visit_stmt py38 (FunctionDef a args body decs ret l c) st = Done st' ->
  exists st4 sc inner own,
    walk_function py38 args body decs ret st = Done st4 /\
    _stack st4 = _stack st ++ [sc] /\ recorded_scope py38 sc /\
    errors st4 = errors st ++ inner /\
    _check_function py38 body st4 = Done (emit own st4) /\
    st' = {| _stack := _stack st; errors := errors st ++ inner ++ own;
             _loop_count := _loop_count st |}.
Proof.
  intros Hb. rewrite visit_FunctionDef_eq.
  destruct (walk_function_behaves py38 args body decs ret Hb) as [S _].
  destruct (walk_function py38 args body decs ret st) as [st4 |] eqn:E4;
    [| done].
  simpl. destruct (S st st4 E4) as (inner & W).
  destruct (walked_from_push _ _ _ _ W) as (sc & Hst4 & Hrec & He & Hl).
  destruct (_check_function py38 body st4) as [st5 |] eqn:E5; [| done].
  simpl. destruct (check_function_done _ _ _ _ _ _ Hst4 E5) as (own & ->).
  rewrite (pop_top (emit own st4) (_stack st) sc Hst4). intros [= <-].
  exists st4, sc, inner, own.
  do 5 (split; [done |]).
  simpl. by rewrite He, Hl, app_assoc.
Qed.

Lemma visit_FunctionDef_behaves py38 a args body decs ret l c :
  behaves py38 (visit_list (visit_stmt py38) body) (forallb well_formed body)
    (forallb returns_in_functions body) ->
  behaves py38 (visit_stmt py38 (FunctionDef a args body decs ret l c))
    (forallb well_formed body) true.
Proof.
  intros Hb. split; [| split]; [| | done].
  - intros st st' E.
    destruct (visit_FunctionDef_run _ _ _ _ _ _ _ _ _ _ Hb E)
      as (st4 & sc & inner & own & _ & _ & _ & _ & _ & ->).
    exists (inner ++ own). repeat split; try done.
    intros rest sc0 Hst. exists sc0. split; [done | apply scope_grows_refl].
  - intros Hwf st _. rewrite visit_FunctionDef_eq.
    destruct (walk_function_behaves py38 args body decs ret Hb) as [S T].
    destruct (T Hwf st) as (st4 & E4). rewrite E4. simpl.
    destruct (S st st4 E4) as (inner & W).
    destruct (walked_from_push _ _ _ _ W) as (sc & Hst4 & _).
    destruct (check_function_total py38 body st4 _ _ Hst4 Hwf) as (own & E5).
    rewrite E5. simpl. rewrite (pop_top (emit own st4) (_stack st) sc Hst4).
    by eauto.
Qed.

Lemma behaves_weaken py38 c wf g wf' g' :
  behaves py38 c wf g -> (wf' = true -> wf = true) -> g' = g ->
  behaves py38 c wf' g'.
Proof.
  intros (S & T & F) Hwf ->. split; [done |]. split; [| done].
  intros H. by apply T, Hwf.
Qed.

Ltac bool_cases :=
  simpl;
  repeat match goal with
         | |- context [forallb ?f ?l] => destruct (forallb f l)
         | |- context [is_nil ?l] => destruct (is_nil l)
         end;
  simpl; try done.

Lemma visit_Return_behaves py38 r :
  behaves py38 (visit_stmt py38 (Return r)) true false.
Proof.
  split; [| split].
  - intros st st' E. destruct (stack_nonempty st) eqn:Hne.
    + destruct (visit_Return_open py38 r st Hne) as (st0 & E0 & W).
      rewrite E in E0. injection E0 as <-. by eauto.
    + destruct (stack_cases st) as [Hst | (rest & sc & Hst)].
      * simpl in E. unfold append_return, update_current in E.
        by rewrite (current_empty _ Hst) in E.
      * by rewrite (stack_nonempty_top _ _ _ Hst) in Hne.
  - intros _ st [Hne | Habs]; [| done].
    destruct (visit_Return_open py38 r st Hne) as (st0 & E0 & _). by eauto.
  - intros _ st Hst. simpl. unfold append_return, update_current.
    by rewrite (current_empty _ Hst).
Qed.

Lemma visit_Assign_behaves py38 targets rhs :
  behaves py38 (visit_Assign py38 targets rhs) (negb (is_nil targets)) true.
Proof.
  split; [| split]; [| | done].
  - intros st st' E.
    destruct (visit_Assign_cases py38 targets rhs st)
      as [[_ E0] | [(_ & _ & E0) | (_ & _ & st0 & E0 & W)]];
      rewrite E in E0; try done; injection E0 as <-;
      eauto using walked_refl.
  - intros Hwf st _.
    destruct (visit_Assign_cases py38 targets rhs st)
      as [[_ E0] | [(_ & -> & _) | (_ & _ & st0 & E0 & _)]];
      by eauto.
Qed.

(** Every visit behaves. *)
Lemma visit_stmt_behaves py38 (s : stmt) :
  behaves py38 (visit_stmt py38 s) (well_formed s) (returns_in_functions s).
Proof.
  induction s as
    [a args body Hb decs ret l c | r | targets rhs l c
    | test body Hb orelse Ho l c | a target iter body Hb orelse Ho l c e
    | test body Hb orelse Ho l c e | body Hb handlers Hh orelse Ho fin Hf l c e
    | type body Hb l c | a items body Hb l c | test msg l c | exc cause l c
    | exprs body Hb exprs' l c ];
    repeat match goal with
           | H : list_all stmt _ _ |- _ => apply behaves_list in H
           end.
  - by apply visit_FunctionDef_behaves.
  - apply visit_Return_behaves.
  - apply visit_Assign_behaves.
  - eapply behaves_weaken;
      [exact (behaves_seq py38 _ _ _ _ _ _
                (behaves_quiet py38 _ (visit_expr_quiet py38 test))
                (behaves_seq py38 _ _ _ _ _ _ Hb Ho)) | bool_cases ..].
  - eapply behaves_weaken;
      [apply behaves_loop;
       exact (behaves_seq py38 _ _ _ _ _ _
                (behaves_quiet py38 _ (visit_expr_quiet py38 target))
                (behaves_seq py38 _ _ _ _ _ _
                   (behaves_quiet py38 _ (visit_expr_quiet py38 iter))
                   (behaves_seq py38 _ _ _ _ _ _ Hb Ho))) | bool_cases ..].
  - eapply behaves_weaken;
      [apply behaves_loop;
       exact (behaves_seq py38 _ _ _ _ _ _
                (behaves_quiet py38 _ (visit_expr_quiet py38 test))
                (behaves_seq py38 _ _ _ _ _ _ Hb Ho)) | bool_cases ..].
  - eapply behaves_weaken;
      [exact (behaves_seq py38 _ _ _ _ _ _
                (behaves_quiet py38 _ (record_try_quiet py38 l e))
                (behaves_seq py38 _ _ _ _ _ _ Hb
                   (behaves_seq py38 _ _ _ _ _ _ Hh
                      (behaves_seq py38 _ _ _ _ _ _ Ho Hf)))) | bool_cases ..].
  - eapply behaves_weaken;
      [exact (behaves_seq py38 _ _ _ _ _ _
                (behaves_quiet py38 _ (visit_opt_quiet py38 type)) Hb)
      | bool_cases ..].
  - eapply behaves_weaken;
      [exact (behaves_seq py38 _ _ _ _ _ _
                (behaves_quiet py38 _ (visit_exprs_quiet py38 items)) Hb)
      | bool_cases ..].
  - apply behaves_quiet.
    exact (quiet_seq py38 _ _ (visit_expr_quiet py38 test)
             (visit_opt_quiet py38 msg)).
  - apply behaves_quiet.
    exact (quiet_seq py38 _ _ (visit_opt_quiet py38 exc)
             (visit_opt_quiet py38 cause)).
  - eapply behaves_weaken;
      [exact (behaves_seq py38 _ _ _ _ _ _
                (behaves_quiet py38 _ (visit_exprs_quiet py38 exprs))
                (behaves_seq py38 _ _ _ _ _ _ Hb
                   (behaves_quiet py38 _ (visit_exprs_quiet py38 exprs'))))
      | bool_cases ..].
Qed.

Lemma visit_stmts_behaves py38 (l : list stmt) :
  behaves py38 (visit_list (visit_stmt py38) l) (forallb well_formed l)
    (forallb returns_in_functions l).
Proof. apply behaves_list, list_all_intro, visit_stmt_behaves. Qed.


(** ** Trivial bodies *)

(** C7.  A function whose body is exactly one [Return] statement, with or
    without a value: visiting its definition returns, appends no finding
    and leaves the scope stack as it found it. *)
Theorem single_return_silent (py38 : bool) (a : bool) (args : list expr)
    (r : return_node) (decs : list expr) (ret : option expr) (l c : Z)
    (st : Visitor) :
  exists st',
    visit_stmt py38 (FunctionDef a args [Return r] decs ret l c) st = Done st'
    /\ errors st' = errors st /\ _stack st' = _stack st.
Proof.
  rewrite visit_FunctionDef_eq.
  assert (quiet_open py38 (fun s0 =>
            st1 <~ visit_list visit_expr args s0;;
            st2 <~ visit_list (visit_stmt py38) [Return r] st1;;
            st3 <~ visit_list visit_expr decs st2;;
            visit_opt visit_expr ret st3)) as Hq.
  { apply quiet_open_seq; [apply quiet_is_open, visit_exprs_quiet |].
    apply quiet_open_seq.
    - apply quiet_open_list. repeat constructor. apply visit_Return_open.
    - apply quiet_open_seq; apply quiet_is_open;
        [apply visit_exprs_quiet | apply visit_opt_quiet]. }
  destruct (Hq (push st)) as (st4 & E4 & W).
  { unfold stack_nonempty, push. simpl. by destruct (_stack st). }
  change (walk_function py38 args [Return r] decs ret st = Done st4) in E4.
  rewrite E4. simpl.
  destruct (walked_from_push _ _ _ _ W) as (sc & Hst4 & _ & He & Hl).
  assert (_check_function py38 [Return r] st4 = Done st4) as ->.
  { unfold _check_function. rewrite (current_top _ _ _ Hst4). simpl.
    by destruct (is_nil (returns sc)). }
  simpl. rewrite (pop_top st4 (_stack st) sc Hst4).
  eexists. split; [done |]. simpl. by rewrite He, app_nil_r.
Qed.

(** ** Returns outside functions *)

(** C10.  With no scope open, visiting a [Return] raises [IndexError];
    so a run raises as soon as the module has a [Return] outside every
    function definition, and on a well-formed module whose returns all
    lie inside function definitions the run returns. *)
Theorem return_needs_open_scope (py38 : bool) :
  (forall r st, _stack st = [] ->
     visit_stmt py38 (Return r) st = IndexError) /\
  (forall body, forallb returns_in_functions body = false ->
     run py38 body = IndexError) /\
  (forall body, forallb well_formed body = true ->
     forallb returns_in_functions body = true ->
     exists st, run py38 body = Done st).
Proof.
  split; [| split].
  - intros r st Hst.
    by apply (proj2 (proj2 (visit_Return_behaves py38 r))).
  - intros body Hg.
    by apply (proj2 (proj2 (visit_stmts_behaves py38 body))).
  - intros body Hwf Hg.
    apply (proj1 (proj2 (visit_stmts_behaves py38 body)) Hwf). by right.
Qed.

Lemma return_needs_open_scope_witness :
  visit_stmt true (Return (ReturnNode None 1 0)) initial = IndexError /\
  run true [If (Name "c" 1 3) [Return (ReturnNode None 2 4)] [] 1 0]
  = IndexError /\
  exists st, run true [assign_then_return] = Done st.
Proof.
  destruct (return_needs_open_scope true) as (H1 & H2 & H3).
  split; [apply H1; reflexivity |].
  split; [apply H2; reflexivity | apply H3; reflexivity].
Defined.

(** ** Suppression by spans *)

Lemma dict_get_mem (x : string) (l : Z) (d : gmap string (list Z)) :
  In l (dict_get x d) -> dict_mem x d = true.
Proof.
  unfold dict_get. intros H. apply dict_mem_true.
  destruct (d !! x); [by eexists | done].
Qed.

Lemma insert_keeps_span (m : gmap Z Z) (s e s' e' : Z) :
  m !! s = None -> m !! s' = Some e' -> <[s := e]> m !! s' = Some e'.
Proof.
  intros Hnone Hsome. rewrite lookup_insert_ne; [done |].
  intros ->. by rewrite Hnone in Hsome.
Qed.

(** One more span never lifts a suppression. *)
Lemma suppressed_mono sc sc2 x s e :
  (loops sc !! s = None /\ sc2 = with_loop s e sc) \/
  (tries sc !! s = None /\ sc2 = with_try s e sc) ->
  _has_refs_or_assigns_within_try_or_loop sc x = true ->
  _has_refs_or_assigns_within_try_or_loop sc2 x = true.
Proof.
  intros Hsc2 Hsup. apply suppressed_iff in Hsup
    as (item & s' & e' & Hin & Hm & Hlt).
  apply suppressed_iff. exists item, s', e'.
  destruct Hsc2 as [[Hnone ->] | [Hnone ->]]; simpl;
    (split; [done |]); (split; [| done]);
    destruct Hm as [Hm | Hm]; eauto using insert_keeps_span.
Qed.

(** C3.  First part: for a [Return] of a recorded scope whose value is
    the bare name [x], when some recorded read or assignment line of [x]
    lies inside a recorded try or loop span ([s < item <= e]), the assign
    check appends nothing.  Second part: recording one more span, all else
    equal, never adds a finding -- with the span the check appends what it
    appended without it, or nothing. *)
Theorem span_suppresses (py38 : bool) (st : Visitor) (rest : list Scope)
    (sc : Scope) (x : string) (L c : Z) :
  _stack st = rest ++ [sc] ->
  (forall r item s e,
     recorded_scope py38 sc ->
     In r (returns sc) -> value r = Some (Name x L c) ->
     In item (dict_get x (refs sc) ++ dict_get x (assigns sc)) ->
     tries sc !! s = Some e \/ loops sc !! s = Some e ->
     s < item <= e ->
     check_assign_of py38 r st = Done st) /\
  (forall s e sc2,
     (loops sc !! s = None /\ sc2 = with_loop s e sc) \/
     (tries sc !! s = None /\ sc2 = with_try s e sc) ->
     exists ds,
       _check_unnecessary_assign py38 (Name x L c) st = Done (emit ds st) /\
       (_check_unnecessary_assign py38 (Name x L c) (with_current sc2 st)
        = Done (emit ds (with_current sc2 st)) \/
        _check_unnecessary_assign py38 (Name x L c) (with_current sc2 st)
        = Done (with_current sc2 st))).
Proof.
  intros Hst. split.
  - intros r item s e [Hrefs Hspans] Hr Hv Hin Hm Hlt.
    unfold check_assign_of. rewrite Hv. unfold _check_unnecessary_assign.
    rewrite (current_top _ _ _ Hst). simpl.
    destruct (dict_mem x (assigns sc)); [| done]. simpl.
    rewrite (dict_get_mem x L (refs sc) (Hrefs r x L c Hr Hv)). simpl.
    destruct (_has_refs_before_next_assign sc x L); [done |].
    assert (_has_refs_or_assigns_within_try_or_loop sc x = true) as ->
      by (apply suppressed_iff; exists item, s, e; auto).
    destruct py38; [done |].
    destruct (Hspans eq_refl) as [Ht Hl]. rewrite Ht, Hl in Hm.
    destruct Hm as [Hm | Hm]; by rewrite lookup_empty in Hm.
  - intros s e sc2 Hsc2.
    assert (_stack (with_current sc2 st) = rest ++ [sc2]) as Hst2
      by (simpl; by rewrite Hst, removelast_last).
    assert (assigns sc2 = assigns sc /\ refs sc2 = refs sc) as [Ha Hr]
      by (destruct Hsc2 as [[_ ->] | [_ ->]]; done).
    assert (_has_refs_before_next_assign sc2 x L
            = _has_refs_before_next_assign sc x L) as Hb
      by (unfold _has_refs_before_next_assign; by rewrite Ha, Hr).
    pose proof (suppressed_mono sc sc2 x s e Hsc2) as Hmono.
    unfold _check_unnecessary_assign.
    rewrite (current_top _ _ _ Hst), (current_top _ _ _ Hst2). simpl.
    rewrite Ha, Hr, Hb.
    destruct (dict_mem x (assigns sc)); simpl;
      [| exists []; rewrite emit_nil; by auto].
    destruct (dict_mem x (refs sc)); simpl; [| by eauto].
    destruct (_has_refs_before_next_assign sc x L);
      [exists []; rewrite emit_nil; by auto |].
    destruct py38; simpl; [| by eauto].
    destruct (_has_refs_or_assigns_within_try_or_loop sc x).
    + rewrite (Hmono eq_refl). exists []. rewrite emit_nil. by auto.
    + destruct (_has_refs_or_assigns_within_try_or_loop sc2 x); by eauto.
Qed.

Lemma span_suppresses_witness :
  check_assign_of true (ReturnNode (Some (Name "x" 4 11)) 4 4)
    (visitor_at scope_loop_assign)
  = Done (visitor_at scope_loop_assign)
  /\
  exists ds,
    _check_unnecessary_assign true (Name "x" 3 11) (visitor_at scope_x)
    = Done (emit ds (visitor_at scope_x)) /\
    (_check_unnecessary_assign true (Name "x" 3 11)
       (with_current (with_loop 1 2 scope_x) (visitor_at scope_x))
     = Done (emit ds (with_current (with_loop 1 2 scope_x)
                        (visitor_at scope_x))) \/
     _check_unnecessary_assign true (Name "x" 3 11)
       (with_current (with_loop 1 2 scope_x) (visitor_at scope_x))
     = Done (with_current (with_loop 1 2 scope_x) (visitor_at scope_x))).
Proof.
  split.
  - refine (proj1 (span_suppresses true (visitor_at scope_loop_assign) []
                     scope_loop_assign "x" 4 11 eq_refl)
              (ReturnNode (Some (Name "x" 4 11)) 4 4) 3 2 3 _ _ eq_refl _ _ _).
    + split; [| done]. intros r y l c [<- | []] [= <- <- <-].
      vm_compute. by left.
    + by left.
    + vm_compute. right. by left.
    + right. reflexivity.
    + lia.
  - refine (proj2 (span_suppresses true (visitor_at scope_x) []
                     scope_x "x" 3 11 eq_refl) 1 2 _ _).
    left. split; reflexivity.
Defined.

(** The whole run on [def f(): for i in xs: x = 1] then [return x]: with
    end lines the loop span suppresses the finding. *)
Example run_loop_assign :
  exists st,
    run true [ FunctionDef false []
                 [ For false (Name "i" 2 8) (Name "xs" 2 13)
                     [Assign [Name "x" 3 8] (Constant COther 3 12) 3 8] []
                     2 4 (Some 3);
                   Return (ReturnNode (Some (Name "x" 4 11)) 4 4) ]
                 [] None 1 0 ] = Done st
    /\ errors st = [].
Proof. eexists; split; vm_compute; reflexivity. Qed.

(** ** Order of the findings, by check and by scope *)



(** ** The unnecessary-assign check on a recorded scope *)




(** The whole run on [def f(): x = 1; return x]: one finding, at the
    return's value, whether or not end lines are available. *)
Example run_assign_then_return (py38 : bool) :
  exists st, run py38 [assign_then_return] = Done st
             /\ errors st = [Diag UnnecessaryAssign 3 11].
Proof. destruct py38; eexists; split; vm_compute; reflexivity. Qed.

(** ** The returns of a trivial body *)

Lemma keeps_returns_done : keeps_returns (fun st => Done st).
Proof. by intros st st' [= <-]. Qed.

Lemma keeps_returns_seq c1 c2 :
  keeps_returns c1 -> keeps_returns c2 ->
  keeps_returns (fun st => st1 <~ c1 st;; c2 st1).
Proof.
  intros H1 H2 st st' E. destruct (c1 st) as [st1 |] eqn:E1; [| done].
  simpl in E. by rewrite (H2 _ _ E), (H1 _ _ E1).
Qed.

Lemma keeps_returns_list {A} (visit : A -> Visitor -> result Visitor) l :
  list_all A (fun x => keeps_returns (visit x)) l ->
  keeps_returns (visit_list visit l).
Proof.
  induction 1 as [| x Hx l _ IH]; [apply keeps_returns_done |].
  by apply (keeps_returns_seq (visit x) (visit_list visit l)).
Qed.

Lemma visit_Name_keeps_returns id l : keeps_returns (visit_Name id l).
Proof.
  intros st st'. unfold visit_Name.
  destruct (stack_cases st) as [Hst | (rest & sc & Hst)].
  - rewrite (stack_nonempty_empty _ Hst). by intros [= <-].
  - rewrite (stack_nonempty_top _ _ _ Hst). unfold append_ref.
    rewrite (update_current_top _ _ _ _ Hst). intros [= <-]. simpl.
    by rewrite Hst, !map_app.
Qed.

Lemma visit_expr_keeps_returns (e : expr) : keeps_returns (visit_expr e).
Proof.
  induction e as [id l c | v l c | elts IH l c | children IH l c].
  - apply visit_Name_keeps_returns.
  - apply keeps_returns_done.
  - by apply keeps_returns_list.
  - by apply keeps_returns_list.
Qed.

Lemma visit_exprs_keep_returns (l : list expr) :
  keeps_returns (visit_list visit_expr l).
Proof. apply keeps_returns_list, list_all_intro, visit_expr_keeps_returns. Qed.

Lemma visit_opt_keeps_returns (o : option expr) :
  keeps_returns (visit_opt visit_expr o).
Proof. destruct o; [apply visit_expr_keeps_returns | apply keeps_returns_done]. Qed.

(** When the body is a lone [Return], the scope the checks read holds
    that [Return] and no other. *)
Lemma single_return_scope py38 args r decs ret st st4 :
  walk_function py38 args [Return r] decs ret st = Done st4 ->
  exists sc, _stack st4 = _stack st ++ [sc] /\ returns sc = [r].
Proof.
  intros E.
  destruct (proj1 (walk_function_behaves py38 args [Return r] decs ret
                     (visit_stmts_behaves py38 [Return r])) st st4 E)
    as (inner & W).
  destruct (walked_from_push _ _ _ _ W) as (sc & Hst4 & _).
  exists sc. split; [done |].
  assert (map returns (_stack st4) = map returns (_stack st) ++ [[r]]) as Hm.
  { unfold walk_function in E.
    destruct (visit_list visit_expr args (push st)) as [st1 |] eqn:E1;
      [| done].
    simpl in E. apply visit_exprs_keep_returns in E1. simpl in E1.
    rewrite map_app in E1. simpl in E1.
    destruct (stack_cases st1) as [H1 | (rest1 & sc1 & H1)].
    { rewrite H1 in E1. simpl in E1. by destruct (map returns (_stack st)). }
    rewrite H1, map_app in E1. simpl in E1.
    apply app_inj_tail in E1 as [Hrest Hsc1].
    unfold append_return in E. rewrite (update_current_top _ _ _ _ H1) in E.
    simpl in E.
    match type of E with
    | context [visit_opt visit_expr (value r) ?s] =>
        destruct (visit_opt visit_expr (value r) s) as [st2 |] eqn:E2;
          [| done]
    end.
    simpl in E. apply visit_opt_keeps_returns in E2. simpl in E2.
    rewrite map_app, Hrest, Hsc1 in E2. simpl in E2.
    destruct (visit_list visit_expr decs st2) as [st3 |] eqn:E3; [| done].
    simpl in E. apply visit_exprs_keep_returns in E3.
    apply visit_opt_keeps_returns in E. by rewrite E, E3, E2. }
  rewrite Hst4, map_app in Hm. simpl in Hm.
  apply app_inv_head in Hm. by injection Hm.
Qed.

(** * Further properties of the visitor *)

(** ** The window of [_has_refs_before_next_assign] *)

(** On a sorted list the first loop finds the least assignment after the
    return line and the greatest one at or before it. *)
Lemma scan_assigns_spec (L : Z) (l : list Z) (b : Z) :
  StronglySorted Z.le l ->
  (match (scan_assigns L l b).2 with
   | Some a => In a l /\ L < a /\ forall a', In a' l -> L < a' -> a <= a'
   | None => forall a', In a' l -> a' <= L
   end) /\
  (((scan_assigns L l b).1 = b /\ forall a', In a' l -> L < a') \/
   (In (scan_assigns L l b).1 l /\ (scan_assigns L l b).1 <= L /\
    forall a', In a' l -> a' <= L -> a' <= (scan_assigns L l b).1)).
Proof.
  intros Hs. revert b.
  induction Hs as [| a l Hs IH Hall]; intros b.
  { simpl. split; [by intros a' [] |]. left. split; [done | by intros a' []]. }
  rewrite List.Forall_forall in Hall. simpl.
  destruct (a >? L) eqn:Hgt; simpl.
  - apply Z.gtb_lt in Hgt. split.
    + split; [by left |]. split; [lia |].
      intros a' [<- | Hin] _; [lia | by apply Hall].
    + left. split; [done |]. intros a' [<- | Hin]; [lia |].
      specialize (Hall a' Hin). lia.
  - assert (a <= L) as Hle by (rewrite Z.gtb_ltb in Hgt; by apply Z.ltb_ge).
    rewrite (proj2 (Z.leb_le a L) Hle).
    destruct (IH a) as [Hafter Hbefore]. split.
    + destruct ((scan_assigns L l a).2) as [a0 |].
      * destruct Hafter as (Hin & Hlt & Hmin). split; [by right |].
        split; [done |]. intros a' [<- | Hin'] Hlt'; [lia | by apply Hmin].
      * intros a' [<- | Hin']; [done | by apply Hafter].
    + right. destruct Hbefore as [[-> Hnone] | (Hin & Hle' & Hmax)].
      * split; [by left |]. split; [done |].
        intros a' [<- | Hin'] Hle'; [lia |]. specialize (Hnone a' Hin'). lia.
      * split; [by right |]. split; [done |].
        intros a' [<- | Hin'] Hle''; [by apply Hall | by apply Hmax].
Qed.

Lemma in_merge_sort (a : Z) (l : list Z) :
  In a (merge_sort Z.le l) <-> In a l.
Proof.
  split; apply Permutation_in;
    [| symmetry]; apply (merge_sort_Permutation Z.le).
Qed.

Lemma refs_window_spec (sc : Scope) (x : string) (L : Z) :
  0 <= L ->
  Forall (fun l => 0 < l) (dict_get x (refs sc)) ->
  (_has_refs_before_next_assign sc x L = true <->
   exists l, intervening_read (dict_get x (assigns sc))
               (dict_get x (refs sc)) L l).
Proof.
  intros HL Hpos. rewrite List.Forall_forall in Hpos.
  unfold _has_refs_before_next_assign, intervening_read.
  pose proof (scan_assigns_spec L (merge_sort Z.le (dict_get x (assigns sc))) 0
                (StronglySorted_merge_sort Z.le _)) as [Hafter Hbefore].
  destruct (scan_assigns L (merge_sort Z.le (dict_get x (assigns sc))) 0)
    as [before after].
  simpl in Hafter, Hbefore.
  assert (forall l, 0 < l ->
            (before < l <-> forall a, In a (dict_get x (assigns sc)) ->
                              a <= L -> a < l)) as Hb.
  { intros l Hl. destruct Hbefore as [[-> Hnone] | (Hin & Hle & Hmax)].
    - split; [| done]. intros _ a Ha Hle.
      apply (proj2 (in_merge_sort _ _)) in Ha. specialize (Hnone a Ha). lia.
    - split.
      + intros Hlt a Ha Hle'. apply (proj2 (in_merge_sort _ _)) in Ha.
        specialize (Hmax a Ha Hle'). lia.
      + intros H. apply (proj1 (in_merge_sort _ _)) in Hin.
        exact (H before Hin Hle). }
  rewrite existsb_exists. split.
  - intros (l & Hin & Hw). exists l. unfold ref_in_window in Hw.
    destruct (l =? L) eqn:Hne; [done |]. apply Z.eqb_neq in Hne.
    split; [done |]. split; [done |].
    specialize (Hb l (Hpos l Hin)).
    destruct after as [a |].
    + destruct Hafter as (Ha & Hlt & Hmin).
      destruct (a =? 0) eqn:Ha0; [apply Z.eqb_eq in Ha0; lia |].
      apply andb_true_iff in Hw as [Hw1 Hw2].
      apply Z.ltb_lt in Hw1. apply Z.leb_le in Hw2.
      split; [by apply Hb |]. intros a' Ha' Hlt'.
      apply (proj2 (in_merge_sort _ _)) in Ha'. specialize (Hmin a' Ha' Hlt'). lia.
    + apply Z.ltb_lt in Hw. split; [by apply Hb |].
      intros a' Ha' Hlt'. apply (proj2 (in_merge_sort _ _)) in Ha'.
      specialize (Hafter a' Ha'). lia.
  - intros (l & Hin & Hne & Hlow & Hhigh). exists l. split; [done |].
    unfold ref_in_window. rewrite (proj2 (Z.eqb_neq l L) Hne).
    specialize (Hb l (Hpos l Hin)).
    assert (before < l) as Hlt by (by apply Hb).
    destruct after as [a |]; [| by apply Z.ltb_lt].
    destruct Hafter as (Ha & HLa & Hmin).
    destruct (a =? 0); [by apply Z.ltb_lt |].
    apply andb_true_iff. split; [by apply Z.ltb_lt |].
    apply Z.leb_le, Hhigh; [by apply (proj1 (in_merge_sort _ _)) | done].
Qed.

(** X1.  With line numbers as Python gives them (the return on a line
    [L >= 0], reads on positive lines), [_has_refs_before_next_assign] is
    true exactly when some recorded read of the variable is an intervening
    read: on another line than the return, after every assignment at or
    before the return line, and not after any assignment that follows it. *)
Theorem refs_before_next_assign_iff (sc : Scope) (x : string) (L : Z) :
  0 <= L ->
  Forall (fun l => 0 < l) (dict_get x (refs sc)) ->
  (_has_refs_before_next_assign sc x L = true <->
   exists l, intervening_read (dict_get x (assigns sc))
               (dict_get x (refs sc)) L l).
Proof. apply refs_window_spec. Qed.

Lemma refs_before_next_assign_iff_witness :
  exists l, intervening_read (dict_get "x" (assigns scope_used_x))
              (dict_get "x" (refs scope_used_x)) 4 l.
Proof.
  apply (proj1 (refs_before_next_assign_iff scope_used_x "x" 4
                  ltac:(lia) ltac:(vm_compute; repeat constructor))).
  vm_compute. reflexivity.
Defined.

(** ** The decision of [_check_unnecessary_assign] *)

Lemma not_suppressed sc x :
  ~ line_in_span sc x -> _has_refs_or_assigns_within_try_or_loop sc x = false.
Proof.
  intros H. apply not_true_is_false. intros Hs.
  by apply H, suppressed_iff.
Qed.

(** X2.  On a scope that holds a read of [x] (as it does for every
    returned name when the checks run), with Python's line numbers,
    [_check_unnecessary_assign] on the returned name [x] reports
    [UnnecessaryAssign] exactly when [x] has a recorded assignment, no
    recorded read is an intervening read, and -- with end lines -- no
    recorded line of [x] lies inside a try or loop span; in every other
    case it leaves the visitor as it was. *)
Theorem unnecessary_assign_decision (py38 : bool) (st : Visitor)
    (rest : list Scope) (sc : Scope) (x : string) (L c : Z) :
  _stack st = rest ++ [sc] ->
  0 <= L ->
  Forall (fun l => 0 < l) (dict_get x (refs sc)) ->
  is_Some (refs sc !! x) ->
  (is_Some (assigns sc !! x) ->
   ~ (exists l, intervening_read (dict_get x (assigns sc))
                  (dict_get x (refs sc)) L l) ->
   ~ (py38 = true /\ line_in_span sc x) ->
   _check_unnecessary_assign py38 (Name x L c) st
   = Done (emit [Diag UnnecessaryAssign L c] st)) /\
  (assigns sc !! x = None \/
   (exists l, intervening_read (dict_get x (assigns sc))
                (dict_get x (refs sc)) L l) \/
   (py38 = true /\ line_in_span sc x) ->
   _check_unnecessary_assign py38 (Name x L c) st = Done st).
Proof.
  intros Hst HL Hpos Hrefs.
  pose proof (refs_window_spec sc x L HL Hpos) as Hwin.
  apply dict_mem_true in Hrefs.
  unfold _check_unnecessary_assign. rewrite (current_top _ _ _ Hst). simpl.
  rewrite Hrefs. simpl. split.
  - intros Hasg Hno Hspan. apply dict_mem_true in Hasg. rewrite Hasg. simpl.
    destruct (_has_refs_before_next_assign sc x L);
      [exfalso; by apply Hno, Hwin |].
    destruct py38; simpl; [| done].
    rewrite not_suppressed; [done |]. intros H. by apply Hspan.
  - intros [Hnone | [Hread | [-> Hspan]]].
    + assert (dict_mem x (assigns sc) = false) as ->; [| done].
      apply not_true_is_false. intros H. apply dict_mem_true in H as [v Hv].
      by rewrite Hnone in Hv.
    + destruct (dict_mem x (assigns sc)); [| done]. simpl.
      by rewrite (proj2 Hwin Hread).
    + destruct (dict_mem x (assigns sc)); [| done]. simpl.
      destruct (_has_refs_before_next_assign sc x L); [done |].
      by rewrite (proj2 (suppressed_iff sc x) Hspan).
Qed.


Lemma unnecessary_assign_decision_witness :
  _check_unnecessary_assign true (Name "x" 4 11) (visitor_at scope_used_x)
  = Done (visitor_at scope_used_x).
Proof.
  refine (proj2 (unnecessary_assign_decision true (visitor_at scope_used_x) []
                   scope_used_x "x" 4 11 eq_refl ltac:(lia)
                   ltac:(vm_compute; repeat constructor)
                   ltac:(vm_compute; by eexists)) _).
  right. left. exists 3. unfold intervening_read.
  change (dict_get "x" (refs scope_used_x)) with [3; 4].
  change (dict_get "x" (assigns scope_used_x)) with [2].
  split; [by left |]. split; [lia |].
  split; intros a [<- | []]; lia.
Defined.

(** ** What a visit keeps *)

(** X3.  A visit that returns has only appended findings, has restored
    [_loop_count], and has changed no scope but the current one: the stack
    is as high as before and every enclosing scope is untouched. *)
Theorem visit_keeps_frame (py38 : bool) (s : stmt) (st st' : Visitor) :
  visit_stmt py38 s st = Done st' ->
  (exists new, errors st' = errors st ++ new) /\
  _loop_count st' = _loop_count st /\
  (_stack st = [] -> _stack st' = []) /\
  (forall rest sc, _stack st = rest ++ [sc] ->
     exists sc', _stack st' = rest ++ [sc']).
Proof.
  intros E.
  destruct (proj1 (visit_stmt_behaves py38 s) st st' E)
    as (new & He & Hl & Hn & Hf).
  split; [by eauto |]. split; [done |]. split; [done |].
  intros rest sc Hst. destruct (Hf rest sc Hst) as (sc' & Hst' & _).
  by eauto.
Qed.

Lemma visit_keeps_frame_witness :
  let st := {| _stack := [scope_x; empty_scope]; errors := [];
               _loop_count := 0 |} in
  let st' := state_of (visit_stmt true mixed_returns st) in
  (exists new, errors st' = errors st ++ new) /\
  _loop_count st' = _loop_count st /\
  (_stack st = [] -> _stack st' = []) /\
  (forall rest sc, _stack st = rest ++ [sc] ->
     exists sc', _stack st' = rest ++ [sc']).
Proof.
  intros st st'. apply (visit_keeps_frame true mixed_returns).
  vm_compute. reflexivity.
Defined.

(** X4.  During a visit the current scope only gains: its returns are
    extended at the end, and every recorded read is still recorded. *)
Theorem scope_only_grows (py38 : bool) (s : stmt) (st st' : Visitor)
    (rest : list Scope) (sc : Scope) :
  visit_stmt py38 s st = Done st' ->
  _stack st = rest ++ [sc] ->
  exists sc' new,
    _stack st' = rest ++ [sc'] /\
    returns sc' = returns sc ++ new /\
    (forall x l, In l (dict_get x (refs sc)) -> In l (dict_get x (refs sc'))).
Proof.
  intros E Hst.
  destruct (proj1 (visit_stmt_behaves py38 s) st st' E)
    as (new & _ & _ & _ & Hf).
  destruct (Hf rest sc Hst) as (sc' & Hst' & Hr & (rs & Hrs & _) & _).
  by exists sc', rs.
Qed.

Lemma scope_only_grows_witness :
  let st := visitor_at scope_x in
  let st' := state_of (visit_stmt true if_with_else st) in
  exists sc' new,
    _stack st' = [] ++ [sc'] /\
    returns sc' = returns scope_x ++ new /\
    (forall x l, In l (dict_get x (refs scope_x)) ->
                 In l (dict_get x (refs sc'))).
Proof.
  intros st st'. apply (scope_only_grows true if_with_else st).
  - vm_compute. reflexivity.
  - reflexivity.
Defined.

(** X5.  Visiting a function definition leaves the scope stack and
    [_loop_count] exactly as they were: the scope pushed for the function
    is popped, and nothing it recorded reaches an enclosing scope. *)
Theorem function_scope_popped (py38 : bool) (a : bool) (args : list expr)
    (body : list stmt) (decs : list expr) (ret : option expr) (l c : Z)
    (st st' : Visitor) :
  visit_stmt py38 (FunctionDef a args body decs ret l c) st = Done st' ->
  _stack st' = _stack st /\ _loop_count st' = _loop_count st.
Proof.
  intros E.
  destruct (visit_FunctionDef_run _ _ _ _ _ _ _ _ _ _
              (visit_stmts_behaves py38 body) E)
    as (st4 & sc & inner & own & _ & _ & _ & _ & _ & ->).
  done.
Qed.

Lemma function_scope_popped_witness :
  let st := visitor_at scope_x in
  let st' := state_of (visit_stmt true mixed_returns st) in
  _stack st' = _stack st /\ _loop_count st' = _loop_count st.
Proof.
  intros st st'.
  apply (function_scope_popped true false []
           [ Assign [Name "x" 2 4] (Constant COther 2 8) 2 4;
             If (Name "c" 3 7)
               [Return (ReturnNode (Some (Name "x" 4 15)) 4 8)] [] 3 4;
             Return (ReturnNode None 5 4) ] [] None 1 0).
  vm_compute. reflexivity.
Defined.

(** The scope on which [_check_function] runs. *)
Lemma checked_scope_recorded py38 args body decs ret st st4 :
  walk_function py38 args body decs ret st = Done st4 ->
  exists sc, _stack st4 = _stack st ++ [sc] /\ recorded_scope py38 sc.
Proof.
  intros E.
  destruct (proj1 (walk_function_behaves py38 args body decs ret
                     (visit_stmts_behaves py38 body)) st st4 E)
    as (inner & W).
  destruct (walked_from_push _ _ _ _ W) as (sc & Hst4 & Hrec & _).
  by eauto.
Qed.

(** X6.  Before 3.8 the scope that a function's checks read holds no try
    span and no loop span, whatever the function contains. *)
Theorem no_spans_before_38 (args : list expr) (body : list stmt)
    (decs : list expr) (ret : option expr) (st st4 : Visitor) :
  walk_function false args body decs ret st = Done st4 ->
  exists sc, _stack st4 = _stack st ++ [sc] /\ tries sc = ∅ /\ loops sc = ∅.
Proof.
  intros E. destruct (checked_scope_recorded _ _ _ _ _ _ _ E)
    as (sc & Hst & _ & Hsp).
  exists sc. split; [done |]. by apply Hsp.
Qed.

Lemma no_spans_before_38_witness :
  let st4 := state_of (walk_function false [] loop_then_return [] None initial) in
  exists sc, _stack st4 = _stack initial ++ [sc] /\ tries sc = ∅ /\ loops sc = ∅.
Proof.
  intros st4. apply (no_spans_before_38 [] loop_then_return [] None initial).
  vm_compute. reflexivity.
Defined.

(** X7.  A run that returns ends with an empty scope stack and a loop
    counter of zero: every scope pushed has been popped. *)
Theorem run_ends_clean (py38 : bool) (body : list stmt) (st : Visitor) :
  run py38 body = Done st -> _stack st = [] /\ _loop_count st = 0.
Proof.
  intros E.
  destruct (proj1 (visit_stmts_behaves py38 body) initial st E)
    as (new & _ & Hl & Hn & _).
  split; [by apply Hn | done].
Qed.

Lemma run_ends_clean_witness :
  let st := state_of (run false [mixed_returns; assign_then_return]) in
  _stack st = [] /\ _loop_count st = 0.
Proof.
  intros st. apply (run_ends_clean false [mixed_returns; assign_then_return]).
  vm_compute. reflexivity.
Defined.

(** X8.  When a function's checks run, every [Return] of its scope whose
    value is a bare name has that name's read recorded on the name's line;
    so [_check_unnecessary_assign] never meets a returned name that is
    missing from [refs]. *)
Theorem returned_names_recorded (py38 : bool) (args : list expr)
    (body : list stmt) (decs : list expr) (ret : option expr)
    (st st4 : Visitor) :
  walk_function py38 args body decs ret st = Done st4 ->
  exists sc,
    _stack st4 = _stack st ++ [sc] /\
    forall r x L c, In r (returns sc) -> value r = Some (Name x L c) ->
      In L (dict_get x (refs sc)) /\ dict_mem x (refs sc) = true.
Proof.
  intros E. destruct (checked_scope_recorded _ _ _ _ _ _ _ E)
    as (sc & Hst & Hrefs & _).
  exists sc. split; [done |]. intros r x L c Hr Hv.
  pose proof (Hrefs r x L c Hr Hv) as Hin.
  split; [done | by apply (dict_get_mem x L)].
Qed.

Lemma returned_names_recorded_witness :
  let st4 := state_of (walk_function true [] loop_then_return [] None initial) in
  exists sc,
    _stack st4 = _stack initial ++ [sc] /\
    forall r x L c, In r (returns sc) -> value r = Some (Name x L c) ->
      In L (dict_get x (refs sc)) /\ dict_mem x (refs sc) = true.
Proof.
  intros st4.
  apply (returned_names_recorded true [] loop_then_return [] None initial).
  vm_compute. reflexivity.
Defined.

(** ** What expressions and assignments record *)

Lemma only_reads_refl st : only_reads st st.
Proof.
  repeat split; try done. intros rest sc Hst. exists sc.
  repeat split; try done. intros x. exists []. by rewrite app_nil_r.
Qed.

Lemma only_reads_trans st1 st2 st3 :
  only_reads st1 st2 -> only_reads st2 st3 -> only_reads st1 st3.
Proof.
  intros (E1 & L1 & N1 & F1) (E2 & L2 & N2 & F2).
  split; [congruence |]. split; [congruence |]. split.
  - intros H. rewrite (N1 H) in *. by apply N2.
  - intros rest sc Hst.
    destruct (F1 rest sc Hst) as (sc2 & Hst2 & A1 & T1 & Lo1 & R1 & M1).
    destruct (F2 rest sc2 Hst2) as (sc3 & Hst3 & A2 & T2 & Lo2 & R2 & M2).
    exists sc3. split; [done |]. do 4 (split; [congruence |]).
    intros x. destruct (M1 x) as [m1 H1], (M2 x) as [m2 H2].
    exists (m1 ++ m2). by rewrite H2, H1, app_assoc.
Qed.

Lemma append_ref_only_reads id l st rest sc :
  _stack st = rest ++ [sc] ->
  exists st', append_ref id l st = Done st' /\ only_reads st st'.
Proof.
  intros Hst. unfold append_ref. rewrite (update_current_top _ _ _ _ Hst).
  eexists. split; [done |]. split; [done |]. split; [done |]. split.
  - intros H. rewrite H in Hst. by destruct rest.
  - intros rest' sc0 Hst'. rewrite Hst' in Hst.
    apply app_inj_tail in Hst as [-> ->]. simpl.
    eexists. split; [done |]. simpl. do 4 (split; [done |]).
    intros x. rewrite dict_get_append.
    destruct (decide (id = x)); [by eexists |].
    exists []. by rewrite app_nil_r.
Qed.

Lemma reads_done : reads (fun st => Done st).
Proof. intros st. eauto using only_reads_refl. Qed.

Lemma reads_seq c1 c2 :
  reads c1 -> reads c2 -> reads (fun st => st1 <~ c1 st;; c2 st1).
Proof.
  intros H1 H2 st. destruct (H1 st) as (st1 & E1 & R1).
  destruct (H2 st1) as (st2 & E2 & R2).
  exists st2. rewrite E1. simpl. split; [done |].
  by eapply only_reads_trans.
Qed.

Lemma reads_list {A} (visit : A -> Visitor -> result Visitor) (l : list A) :
  list_all A (fun x => reads (visit x)) l -> reads (visit_list visit l).
Proof.
  induction 1 as [| x Hx l _ IH]; [apply reads_done |].
  by apply (reads_seq (visit x) (visit_list visit l)).
Qed.

Lemma visit_Name_reads id l : reads (visit_Name id l).
Proof.
  intros st. unfold visit_Name.
  destruct (stack_cases st) as [Hst | (rest & sc & Hst)].
  - rewrite (stack_nonempty_empty _ Hst). eauto using only_reads_refl.
  - rewrite (stack_nonempty_top _ _ _ Hst). by eapply append_ref_only_reads.
Qed.

Lemma visit_expr_reads (e : expr) : reads (visit_expr e).
Proof.
  induction e as [id l c | v l c | elts IH l c | children IH l c].
  - apply visit_Name_reads.
  - apply reads_done.
  - by apply reads_list.
  - by apply reads_list.
Qed.

Lemma generic_visit_expr_reads (e : expr) : reads (generic_visit_expr e).
Proof.
  destruct e; try apply reads_done;
    apply reads_list, list_all_intro, visit_expr_reads.
Qed.

(** The first half of [visit_Assign], up to the look at the target. *)
Lemma assigned_value_reads (rhs : expr) (st : Visitor) :
  stack_nonempty st = true ->
  exists st2,
    (st1 <~ match rhs with
            | Name id l _ => append_ref id l st
            | _ => Done st
            end;; generic_visit_expr rhs st1) = Done st2 /\
    only_reads st st2.
Proof.
  intros Hne. destruct (stack_cases st) as [Hst | (rest & sc & Hst)].
  { by rewrite (stack_nonempty_empty _ Hst) in Hne. }
  assert (exists st1,
            match rhs with
            | Name id l _ => append_ref id l st
            | _ => Done st
            end = Done st1 /\ only_reads st st1) as (st1 & E1 & R1).
  { destruct rhs; eauto using only_reads_refl.
    by eapply append_ref_only_reads. }
  rewrite E1. simpl.
  destruct (generic_visit_expr_reads rhs st1) as (st2 & E2 & R2).
  exists st2. split; [done |]. by eapply only_reads_trans.
Qed.

(** X9.  Visiting an expression never raises, and changes nothing but the
    reads of the current scope, which only gain entries: no finding, no
    assignment, no return and no span comes from an expression, and at
    module level the visitor is left as it was. *)
Theorem expressions_only_read (e : expr) (st : Visitor) :
  exists st', visit_expr e st = Done st' /\ only_reads st st'.
Proof. apply visit_expr_reads. Qed.

(** X10.  An assignment that unpacks a value that is not a tuple literal
    ([x, y = obj]) records no binding: it returns having changed nothing
    but the reads of the current scope. *)
Theorem unpacking_records_no_binding (py38 : bool) (elts : list expr)
    (l c : Z) (ts : list expr) (rhs : expr) (l0 c0 : Z) (st : Visitor) :
  (forall es l' c', rhs <> Tuple es l' c') ->
  exists st',
    visit_stmt py38 (Assign (Tuple elts l c :: ts) rhs l0 c0) st = Done st' /\
    only_reads st st'.
Proof.
  intros Hrhs. simpl. unfold visit_Assign.
  destruct (stack_nonempty st) eqn:Hne; simpl;
    [| eauto using only_reads_refl].
  destruct (assigned_value_reads rhs st Hne) as (st2 & E2 & R2).
  destruct (match rhs with
            | Name id l1 _ => append_ref id l1 st
            | _ => Done st
            end) as [st1 |]; simpl in E2; [| done].
  simpl. rewrite E2. simpl.
  destruct rhs as [| | es l' c' |]; eauto. by destruct (Hrhs es l' c').
Qed.

Lemma unpacking_records_no_binding_witness :
  exists st',
    visit_stmt true
      (Assign [Tuple [Name "x" 2 4; Name "y" 2 7] 2 4] (Name "obj" 2 11) 2 4)
      (visitor_at scope_x) = Done st' /\
    only_reads (visitor_at scope_x) st'.
Proof.
  apply (unpacking_records_no_binding true). intros es l' c' H. discriminate H.
Defined.

Lemma visit_assign_target_in_loop (node : expr) (st : Visitor) :
  _loop_count st <> 0 ->
  exists st', _visit_assign_target false node st = Done st' /\
              only_reads st st'.
Proof.
  revert st.
  induction node as [id l c | v l c | elts IH l c | children IH l c];
    intros st Hlc.
  - simpl. rewrite (proj2 (Z.eqb_neq _ _) Hlc). eauto using only_reads_refl.
  - apply reads_done.
  - simpl. revert st Hlc.
    induction IH as [| e He elts _ IHl]; intros st Hlc;
      [eauto using only_reads_refl |].
    simpl. destruct (He st Hlc) as (st1 & E1 & R1). rewrite E1. simpl.
    destruct (IHl st1) as (st2 & E2 & R2).
    { destruct R1 as (_ & -> & _). done. }
    exists st2. split; [done |]. by eapply only_reads_trans.
  - apply (generic_visit_expr_reads (OtherExpr children l c)).
Qed.

(** X11.  Before 3.8, while the loop counter is not zero (inside a loop),
    an assignment records no binding whatever its target: it returns
    having changed nothing but the reads of the current scope. *)
Theorem loop_assignment_not_recorded (targets : list expr) (rhs : expr)
    (l c : Z) (st : Visitor) :
  _loop_count st <> 0 ->
  targets <> [] ->
  exists st',
    visit_stmt false (Assign targets rhs l c) st = Done st' /\
    only_reads st st'.
Proof.
  intros Hlc Htargets. simpl. unfold visit_Assign.
  destruct (stack_nonempty st) eqn:Hne; simpl;
    [| eauto using only_reads_refl].
  destruct (assigned_value_reads rhs st Hne) as (st2 & E2 & R2).
  destruct (match rhs with
            | Name id l1 _ => append_ref id l1 st
            | _ => Done st
            end) as [st1 |]; simpl in E2; [| done].
  simpl. rewrite E2. simpl.
  destruct targets as [| target ts]; [done |].
  destruct (visit_assign_target_in_loop target st2) as (st3 & E3 & R3).
  { destruct R2 as (_ & -> & _). done. }
  assert (only_reads st st3) as R by (by eapply only_reads_trans).
  destruct target; destruct rhs; eauto.
Qed.

Lemma loop_assignment_not_recorded_witness :
  exists st',
    visit_stmt false (Assign [Name "x" 3 8] (Constant COther 3 12) 3 8)
      {| _stack := [scope_x]; errors := []; _loop_count := 1 |} = Done st' /\
    only_reads {| _stack := [scope_x]; errors := []; _loop_count := 1 |} st'.
Proof.
  apply loop_assignment_not_recorded; [simpl; lia | discriminate].
Defined.

(** X12.  From 3.8 on, or outside every loop, an assignment whose first
    target is a plain name appends the name's line to that name's
    assignments in the current scope, leaves the assignments of every
    other name alone and appends no finding. *)
Theorem name_target_recorded (py38 : bool) (x : string) (l c : Z)
    (ts : list expr) (rhs : expr) (l0 c0 : Z) (st : Visitor)
    (rest : list Scope) (sc : Scope) :
  _stack st = rest ++ [sc] ->
  py38 = true \/ _loop_count st = 0 ->
  exists st' sc',
    visit_stmt py38 (Assign (Name x l c :: ts) rhs l0 c0) st = Done st' /\
    _stack st' = rest ++ [sc'] /\
    dict_get x (assigns sc') = dict_get x (assigns sc) ++ [l] /\
    (forall y, y <> x -> dict_get y (assigns sc') = dict_get y (assigns sc)) /\
    errors st' = errors st.
Proof.
  intros Hst Hcond. simpl. unfold visit_Assign.
  pose proof (stack_nonempty_top _ _ _ Hst) as Hne. rewrite Hne. simpl.
  destruct (assigned_value_reads rhs st Hne)
    as (st2 & E2 & He & Hl & _ & Hf).
  destruct (match rhs with
            | Name id l1 _ => append_ref id l1 st
            | _ => Done st
            end) as [st1 |]; simpl in E2; [| done].
  simpl. rewrite E2. simpl.
  destruct (Hf rest sc Hst) as (sc2 & Hst2 & Ha & _).
  assert (py38 || (_loop_count st2 =? 0) = true) as Hc.
  { destruct Hcond as [-> | Hz]; [done |].
    rewrite Hl, Hz. by rewrite orb_true_r. }
  assert (exists st' sc',
            append_assign x l st2 = Done st' /\
            _stack st' = rest ++ [sc'] /\
            dict_get x (assigns sc') = dict_get x (assigns sc) ++ [l] /\
            (forall y, y <> x ->
               dict_get y (assigns sc') = dict_get y (assigns sc)) /\
            errors st' = errors st) as Hrec.
  { unfold append_assign. rewrite (update_current_top _ _ _ _ Hst2).
    eexists _, _. split; [done |]. split; [done |]. simpl.
    rewrite Ha. split; [| split; [| done]].
    - rewrite dict_get_append. by rewrite decide_True.
    - intros y Hy. rewrite dict_get_append. by rewrite decide_False. }
  destruct rhs; rewrite Hc; exact Hrec.
Qed.

Lemma name_target_recorded_witness :
  exists st' sc',
    visit_stmt true (Assign [Name "x" 5 4] (Name "y" 5 8) 5 4)
      (visitor_at scope_x) = Done st' /\
    _stack st' = [] ++ [sc'] /\
    dict_get "x" (assigns sc') = dict_get "x" (assigns scope_x) ++ [5] /\
    (forall y, y <> "x" ->
       dict_get y (assigns sc') = dict_get y (assigns scope_x)) /\
    errors st' = errors (visitor_at scope_x).
Proof.
  apply (name_target_recorded true "x" 5 4 [] (Name "y" 5 8) 5 4
           (visitor_at scope_x) [] scope_x eq_refl).
  by left.
Defined.

(** ** More of [_check_function] *)

(** X13.  When no [Return] of the scope carries a value other than the
    [None] literal, and the body is not a lone [Return], the findings of
    [_check_function] are exactly one [UnnecessaryReturnNone] per
    [return None], at that node, in the order of the scope's returns:
    bare returns get nothing and the end of the body is not examined. *)
Theorem return_none_flagged (py38 : bool) (body : list stmt) (st : Visitor)
    (rest : list Scope) (sc : Scope) :
  _stack st = rest ++ [sc] ->
  is_nil body = false ->
  only_return body = false ->
  _result_exists sc = false ->
  _check_function py38 body st
  = Done (emit (map (diag_at UnnecessaryReturnNone)
                  (List.filter (fun r => is_none (value r)) (returns sc))) st).
Proof.
  intros Hst Hbody Honly Hres.
  destruct (check_function_unfold py38 body sc) as (ua & _ & _ & Heq).
  rewrite (Heq st rest Hst), Hbody, Honly, Hres. simpl.
  rewrite orb_false_r. destruct (returns sc); simpl; [| done].
  by rewrite emit_nil.
Qed.

Lemma return_none_flagged_witness :
  _check_function true
    [ If (Name "c" 2 7) [Return (ReturnNode (Some (Constant CNone 3 15)) 3 8)]
        [] 2 4;
      Return (ReturnNode None 4 4) ]
    (visitor_at scope_none_returns)
  = Done (emit [Diag UnnecessaryReturnNone 3 8] (visitor_at scope_none_returns)).
Proof.
  apply (return_none_flagged true _ _ [] scope_none_returns); reflexivity.
Defined.

Lemma plain_fall_through_flagged (s : stmt) (st : Visitor) :
  plain_fall_through s = true ->
  _check_implicit_return s st
  = Done (emit [Diag ImplicitReturn (stmt_lineno s) (stmt_col_offset s)] st).
Proof.
  destruct s; simpl; try done.
  - by intros ->.
  - intros H. apply negb_true_iff in H. by rewrite H.
Qed.

Lemma only_return_snoc_plain body0 s :
  plain_fall_through s = true -> only_return (body0 ++ [s]) = false.
Proof.
  intros H. unfold only_return. rewrite last_snoc.
  destruct s; try done; apply andb_false_r.
Qed.

(** X14.  When some [Return] of the scope carries a value other than the
    [None] literal and the body ends in a statement the terminal-path
    check does not look into -- an assignment, an expression or any other
    plain statement, a nested definition, an [assert] of anything but the
    literal [False], or a [for] loop without [else] -- the function gets
    exactly one [ImplicitReturn], at that last statement. *)
Theorem trailing_statement_flagged (py38 : bool) (st : Visitor)
    (rest : list Scope) (sc : Scope) (body0 : list stmt) (s : stmt) :
  _stack st = rest ++ [sc] ->
  _result_exists sc = true ->
  plain_fall_through s = true ->
  exists new,
    _check_function py38 (body0 ++ [s]) st = Done (emit new st) /\
    of_kind ImplicitReturn new
    = [Diag ImplicitReturn (stmt_lineno s) (stmt_col_offset s)].
Proof.
  intros Hst Hres Hplain.
  destruct (check_function_unfold py38 (body0 ++ [s]) sc)
    as (ua & Hsub & _ & Heq).
  rewrite (Heq st rest Hst).
  rewrite (result_exists_nonempty _ Hres), is_nil_snoc,
    (only_return_snoc_plain _ _ Hplain), Hres, on_last_snoc,
    (plain_fall_through_flagged _ _ Hplain).
  simpl. eexists. split; [by rewrite !emit_emit |].
  rewrite !of_kind_app.
  rewrite (of_kind_none _ ImplicitReturnValue (map _ _)),
    (of_kind_none _ UnnecessaryAssign ua);
    eauto using diag_at_kind, value_diag_kind.
Qed.

Lemma trailing_statement_flagged_witness :
  exists new,
    _check_function true
      ([if_with_else] ++
       [For false (Name "i" 6 8) (Name "xs" 6 13)
          [OtherStmt [] [] [] 7 8] [] 6 4 (Some 7)])
      (visitor_at scope_two_returns)
    = Done (emit new (visitor_at scope_two_returns)) /\
    of_kind ImplicitReturn new = [Diag ImplicitReturn 6 4].
Proof.
  apply (trailing_statement_flagged true _ [] scope_two_returns);
    reflexivity.
Defined.

(** ** Where findings come from *)

Lemma silent_done : silent (fun st => Done st).
Proof. by intros st st' [= <-]. Qed.

Lemma silent_seq c1 c2 :
  silent c1 -> silent c2 -> silent (fun st => st1 <~ c1 st;; c2 st1).
Proof.
  intros H1 H2 st st' E. destruct (c1 st) as [st1 |] eqn:E1; [| done].
  simpl in E. by rewrite (H2 _ _ E), (H1 _ _ E1).
Qed.

Lemma silent_quiet py38 c : quiet py38 c -> silent c.
Proof.
  intros H st st' E. destruct (H st) as (st0 & E0 & He & _).
  rewrite E in E0. injection E0 as <-. by rewrite He, app_nil_r.
Qed.

Lemma silent_update f : silent (update_current f).
Proof.
  intros st st'. unfold update_current.
  destruct (current st); simpl; [| done]. by intros [= <-].
Qed.

Lemma silent_loop py38 l e c : silent c -> silent (_visit_loop py38 l e c).
Proof.
  intros Hc. unfold _visit_loop. destruct py38.
  - apply silent_seq; [| done]. intros st st'. unfold record_loop.
    destruct (stack_nonempty st); [| by intros [= <-]].
    destruct e; [apply silent_update | by intros [= <-]].
  - intros st st' E.
    destruct (c (set_loop_count (_loop_count st + 1) st)) as [st1 |] eqn:E1;
      [| done].
    simpl in E. injection E as <-. simpl. exact (Hc _ _ E1).
Qed.

Lemma silent_stmts py38 (l : list stmt) :
  list_all stmt (fun s => has_function_def s = false ->
                          silent (visit_stmt py38 s)) l ->
  existsb has_function_def l = false ->
  silent (visit_list (visit_stmt py38) l).
Proof.
  induction 1 as [| x Hx l _ IH]; [intros _; apply silent_done |].
  simpl. intros H. apply orb_false_iff in H as [H1 H2].
  apply (silent_seq (visit_stmt py38 x) (visit_list (visit_stmt py38) l));
    auto.
Qed.

(** X15.  Findings come from function definitions only: visiting a
    statement with no function definition at or below it appends none,
    in an open scope as at module level. *)
Theorem no_function_no_findings (py38 : bool) (s : stmt) :
  has_function_def s = false -> silent (visit_stmt py38 s).
Proof.
  induction s as
    [a args body Hb decs ret l c | r | targets rhs l c
    | test body Hb orelse Ho l c | a target iter body Hb orelse Ho l c e
    | test body Hb orelse Ho l c e | body Hb handlers Hh orelse Ho fin Hf l c e
    | type body Hb l c | a items body Hb l c | test msg l c | exc cause l c
    | exprs body Hb exprs' l c ];
    simpl; intros Hfn;
    repeat match goal with
           | H : _ || _ = false |- _ => apply orb_false_iff in H as [? ?]
           end;
    repeat match goal with
           | H : list_all stmt _ ?l, H' : existsb has_function_def ?l = false
             |- _ => apply silent_stmts in H; [| exact H']
           end;
    try done.
  - apply silent_seq; [apply silent_update |].
    apply (silent_quiet true), visit_opt_quiet.
  - intros st st' E.
    destruct (visit_Assign_cases py38 targets rhs st)
      as [[_ E0] | [(_ & _ & E0) | (_ & _ & st0 & E0 & W)]];
      rewrite E in E0; try done; injection E0 as <-; [done |].
    destruct W as (He & _). by rewrite He, app_nil_r.
  - repeat apply silent_seq; try done.
    apply (silent_quiet true), visit_expr_quiet.
  - apply silent_loop. repeat apply silent_seq; try done;
      apply (silent_quiet true), visit_expr_quiet.
  - apply silent_loop. repeat apply silent_seq; try done.
    apply (silent_quiet true), visit_expr_quiet.
  - repeat apply silent_seq; try done.
    apply (silent_quiet py38), record_try_quiet.
  - apply silent_seq; [| done]. apply (silent_quiet true), visit_opt_quiet.
  - apply silent_seq; [| done]. apply (silent_quiet true), visit_exprs_quiet.
  - apply silent_seq; [apply (silent_quiet true), visit_expr_quiet |].
    apply (silent_quiet true), visit_opt_quiet.
  - apply silent_seq; apply (silent_quiet true), visit_opt_quiet.
  - repeat apply silent_seq; try done;
      apply (silent_quiet true), visit_exprs_quiet.
Qed.

Lemma no_function_no_findings_witness :
  errors (state_of (visit_stmt true if_without_else (visitor_at scope_x)))
  = errors (visitor_at scope_x).
Proof.
  apply (no_function_no_findings true if_without_else).
  - reflexivity.
  - vm_compute. reflexivity.
Defined.

(** ** Findings of a function do not depend on its context *)

Lemma local_done : local (fun st => Done st).
Proof.
  intros st1 st2 Hv. split; [done |]. exists []. by rewrite !app_nil_r.
Qed.

Lemma local_seq c1 c2 :
  local c1 -> local c2 -> local (fun st => st1 <~ c1 st;; c2 st1).
Proof.
  intros H1 H2 st1 st2 Hv. specialize (H1 st1 st2 Hv).
  destruct (c1 st1) as [a |], (c1 st2) as [b |]; try done. simpl.
  destruct H1 as (Hab & n1 & Ea & Eb). specialize (H2 a b Hab).
  destruct (c2 a) as [a' |], (c2 b) as [b' |]; try done.
  destruct H2 as (Hab' & n2 & Ea' & Eb'). split; [done |].
  exists (n1 ++ n2). by rewrite Ea', Eb', Ea, Eb, !app_assoc.
Qed.

Lemma local_list {A} (visit : A -> Visitor -> result Visitor) (l : list A) :
  list_all A (fun x => local (visit x)) l -> local (visit_list visit l).
Proof.
  induction 1 as [| x Hx l _ IH]; [apply local_done |].
  by apply (local_seq (visit x) (visit_list visit l)).
Qed.

Lemma local_opt {A} (visit : A -> Visitor -> result Visitor) (o : option A) :
  (forall x, local (visit x)) -> local (visit_opt visit o).
Proof. intros H. destruct o; [apply H | apply local_done]. Qed.

Lemma stack_nonempty_last st :
  stack_nonempty st = match last (_stack st) with
                      | Some _ => true
                      | None => false
                      end.
Proof.
  destruct (stack_cases st) as [Hst | (rest & sc & Hst)].
  - by rewrite (stack_nonempty_empty _ Hst), Hst.
  - by rewrite (stack_nonempty_top _ _ _ Hst), Hst, last_snoc.
Qed.

Lemma same_view_nonempty st1 st2 :
  same_view st1 st2 -> stack_nonempty st1 = stack_nonempty st2.
Proof. intros [_ H]. by rewrite !stack_nonempty_last, H. Qed.

Lemma local_update f : local (update_current f).
Proof.
  intros st1 st2 [Hl Hs]. unfold update_current, current. rewrite Hs.
  destruct (last (_stack st2)) as [sc |]; simpl; [| done].
  split; [split; [done | simpl; by rewrite !last_snoc] |].
  exists []. simpl. by rewrite !app_nil_r.
Qed.

(** A branch on what both visitors agree on. *)
Lemma local_if (test : Visitor -> bool) c1 c2 :
  (forall st1 st2, same_view st1 st2 -> test st1 = test st2) ->
  local c1 -> local c2 ->
  local (fun st => if test st then c1 st else c2 st).
Proof.
  intros Ht H1 H2 st1 st2 Hv. rewrite (Ht st1 st2 Hv).
  destruct (test st2); [by apply H1 | by apply H2].
Qed.

Lemma local_visit_Name id l : local (visit_Name id l).
Proof.
  apply (local_if stack_nonempty);
    [apply same_view_nonempty | apply local_update | apply local_done].
Qed.

Lemma local_visit_expr (e : expr) : local (visit_expr e).
Proof.
  induction e as [id l c | v l c | elts IH l c | children IH l c].
  - apply local_visit_Name.
  - apply local_done.
  - by apply local_list.
  - by apply local_list.
Qed.

Lemma local_visit_exprs (l : list expr) : local (visit_list visit_expr l).
Proof. apply local_list, list_all_intro, local_visit_expr. Qed.

Lemma local_generic_visit_expr (e : expr) : local (generic_visit_expr e).
Proof. destruct e; try apply local_done; apply local_visit_exprs. Qed.

Lemma local_visit_assign_target py38 (node : expr) :
  local (_visit_assign_target py38 node).
Proof.
  induction node as [id l c | v l c | elts IH l c | children IH l c].
  - apply (local_if (fun st => py38 || (_loop_count st =? 0))).
    + by intros st1 st2 [-> _].
    + apply local_update.
    + apply local_done.
  - apply local_done.
  - by apply local_list.
  - apply local_visit_exprs.
Qed.

Lemma local_visit_Assign py38 targets rhs :
  local (visit_Assign py38 targets rhs).
Proof.
  unfold visit_Assign.
  apply (local_if (fun st => negb (stack_nonempty st))).
  { intros st1 st2 Hv. by rewrite (same_view_nonempty _ _ Hv). }
  { apply local_done. }
  apply (local_seq
           (fun st => match rhs with
                      | Name id l _ => append_ref id l st
                      | _ => Done st
                      end)).
  { destruct rhs; try apply local_done. apply local_update. }
  apply (local_seq (generic_visit_expr rhs));
    [apply local_generic_visit_expr |].
  destruct targets as [| target ts]; [by intros st1 st2 _ |].
  destruct target; destruct rhs;
    first [apply local_done | apply local_visit_assign_target].
Qed.

Lemma local_visit_loop py38 l e c : local c -> local (_visit_loop py38 l e c).
Proof.
  intros Hc. unfold _visit_loop. destruct py38.
  - apply local_seq; [| done]. unfold record_loop.
    apply (local_if stack_nonempty); [apply same_view_nonempty | |];
      [destruct e; [apply local_update |] |]; apply local_done.
  - intros st1 st2 [Hl Hs].
    assert (same_view (set_loop_count (_loop_count st1 + 1) st1)
              (set_loop_count (_loop_count st2 + 1) st2)) as Hv
      by (split; [simpl; by rewrite Hl | done]).
    specialize (Hc _ _ Hv).
    destruct (c (set_loop_count (_loop_count st1 + 1) st1)) as [a |],
      (c (set_loop_count (_loop_count st2 + 1) st2)) as [b |]; try done.
    simpl. destruct Hc as ([Hl' Hs'] & new & Ea & Eb).
    split; [split; [simpl; by rewrite Hl' | done] | by exists new].
Qed.

Lemma local_record_try py38 l e : local (record_try py38 l e).
Proof.
  unfold record_try. destruct py38; [| apply local_done].
  apply (local_if stack_nonempty); [apply same_view_nonempty | |];
    [destruct e; [apply local_update |] |]; apply local_done.
Qed.

Lemma same_view_emit ds st1 st2 :
  same_view st1 st2 -> same_view (emit ds st1) (emit ds st2).
Proof. by intros [? ?]. Qed.

Lemma local_check_function py38 body : local (_check_function py38 body).
Proof.
  intros st1 st2 Hv. pose proof Hv as [Hl Hs].
  destruct (last (_stack st1)) as [sc |] eqn:H1.
  - symmetry in Hs. apply last_Some in H1 as [rest1 H1].
    apply last_Some in Hs as [rest2 H2].
    destruct (check_function_unfold py38 body sc) as (ua & _ & _ & Heq).
    rewrite (Heq st1 rest1 H1), (Heq st2 rest2 H2).
    assert (forall ds, same_view (emit ds st1) (emit ds st2) /\
              exists new, errors (emit ds st1) = errors st1 ++ new /\
                          errors (emit ds st2) = errors st2 ++ new) as Hemit.
    { intros ds. split; [by apply same_view_emit | by exists ds]. }
    assert (same_view st1 st2 /\
              exists new, errors st1 = errors st1 ++ new /\
                          errors st2 = errors st2 ++ new) as Hnone.
    { split; [done |]. exists []. by rewrite !app_nil_r. }
    destruct (is_nil (returns sc) || is_nil body); [apply Hnone |].
    destruct (only_return body); [apply Hnone |].
    destruct (negb (_result_exists sc)); [apply Hemit |].
    destruct (last_statement_emits body) as (r & Hr & _).
    rewrite !Hr. destruct r as [ir |]; unfold bind; [| done].
    rewrite !emit_emit. apply Hemit.
  - unfold _check_function, current. by rewrite <- Hs, H1.
Qed.

Lemma visit_FunctionDef_walk_and_check py38 a args body decs ret l c st :
  visit_stmt py38 (FunctionDef a args body decs ret l c) st
  = (st5 <~ walk_and_check py38 args body decs ret (push st);; pop st5).
Proof.
  simpl. unfold walk_and_check.
  destruct (visit_list visit_expr args (push st)) as [st1 |]; [| done].
  simpl. destruct (visit_list (visit_stmt py38) body st1) as [st2 |];
    [| done].
  simpl. destruct (visit_list visit_expr decs st2) as [st3 |]; [| done].
  simpl. by destruct (visit_opt visit_expr ret st3) as [st4 |].
Qed.

Lemma walk_and_check_frame py38 args body decs ret st st5 :
  walk_and_check py38 args body decs ret (push st) = Done st5 ->
  exists sc, _stack st5 = _stack st ++ [sc] /\
             _loop_count st5 = _loop_count st.
Proof.
  intros E.
  assert (walk_and_check py38 args body decs ret (push st)
          = (st4 <~ walk_function py38 args body decs ret st;;
             _check_function py38 body st4)) as Heq.
  { unfold walk_and_check, walk_function.
    destruct (visit_list visit_expr args (push st)) as [st1 |]; [| done].
    simpl. destruct (visit_list (visit_stmt py38) body st1) as [st2 |];
      [| done].
    simpl. by destruct (visit_list visit_expr decs st2) as [st3 |]. }
  rewrite Heq in E.
  destruct (walk_function py38 args body decs ret st) as [st4 |] eqn:E4;
    [| done].
  simpl in E.
  destruct (proj1 (walk_function_behaves py38 args body decs ret
                     (visit_stmts_behaves py38 body)) st st4 E4)
    as (inner & W).
  destruct (walked_from_push _ _ _ _ W) as (sc & Hst4 & _ & _ & Hl).
  destruct (check_function_done _ _ _ _ _ _ Hst4 E) as (own & ->).
  by exists sc.
Qed.

Lemma local_walk_and_check py38 args body decs ret :
  local (visit_list (visit_stmt py38) body) ->
  local (walk_and_check py38 args body decs ret).
Proof.
  intros Hb. unfold walk_and_check.
  apply (local_seq (visit_list visit_expr args)); [apply local_visit_exprs |].
  apply (local_seq (visit_list (visit_stmt py38) body)); [done |].
  apply (local_seq (visit_list visit_expr decs)); [apply local_visit_exprs |].
  apply (local_seq (visit_opt visit_expr ret));
    [apply local_opt, local_visit_expr | apply local_check_function].
Qed.

(** Two visits of one function definition, from visitors that agree on
    the loop counter only. *)
Lemma function_def_agrees py38 a args body decs ret l c st1 st2 :
  local (visit_list (visit_stmt py38) body) ->
  _loop_count st1 = _loop_count st2 ->
  match visit_stmt py38 (FunctionDef a args body decs ret l c) st1,
        visit_stmt py38 (FunctionDef a args body decs ret l c) st2 with
  | Done a1, Done a2 =>
      (_stack a1 = _stack st1 /\ _loop_count a1 = _loop_count st1) /\
      (_stack a2 = _stack st2 /\ _loop_count a2 = _loop_count st2) /\
      exists new, errors a1 = errors st1 ++ new /\
                  errors a2 = errors st2 ++ new
  | IndexError, IndexError => True
  | _, _ => False
  end.
Proof.
  intros Hb Hl. rewrite !visit_FunctionDef_walk_and_check.
  assert (same_view (push st1) (push st2)) as Hv
    by (split; [done | simpl; by rewrite !last_snoc]).
  pose proof (local_walk_and_check py38 args body decs ret Hb _ _ Hv) as H.
  destruct (walk_and_check py38 args body decs ret (push st1))
    as [b1 |] eqn:E1,
    (walk_and_check py38 args body decs ret (push st2)) as [b2 |] eqn:E2;
    try done.
  simpl. destruct H as (_ & new & Ea & Eb).
  destruct (walk_and_check_frame _ _ _ _ _ _ _ E1) as (sc1 & Hs1 & Hl1).
  destruct (walk_and_check_frame _ _ _ _ _ _ _ E2) as (sc2 & Hs2 & Hl2).
  rewrite (pop_top b1 _ _ Hs1), (pop_top b2 _ _ Hs2). simpl.
  do 2 (split; [done |]). by exists new.
Qed.

Lemma local_FunctionDef py38 a args body decs ret l c :
  local (visit_list (visit_stmt py38) body) ->
  local (visit_stmt py38 (FunctionDef a args body decs ret l c)).
Proof.
  intros Hb st1 st2 [Hl Hs].
  pose proof (function_def_agrees py38 a args body decs ret l c st1 st2 Hb Hl)
    as H.
  destruct (visit_stmt py38 (FunctionDef a args body decs ret l c) st1),
    (visit_stmt py38 (FunctionDef a args body decs ret l c) st2); try done.
  destruct H as ([S1 L1] & [S2 L2] & Hnew).
  split; [| done]. split; [congruence | by rewrite S1, S2].
Qed.

Lemma visit_stmt_local py38 (s : stmt) : local (visit_stmt py38 s).
Proof.
  induction s as
    [a args body Hb decs ret l c | r | targets rhs l c
    | test body Hb orelse Ho l c | a target iter body Hb orelse Ho l c e
    | test body Hb orelse Ho l c e | body Hb handlers Hh orelse Ho fin Hf l c e
    | type body Hb l c | a items body Hb l c | test msg l c | exc cause l c
    | exprs body Hb exprs' l c ];
    repeat match goal with
           | H : list_all stmt _ _ |- _ => apply local_list in H
           end.
  - by apply local_FunctionDef.
  - apply (local_seq (append_return r)); [apply local_update |].
    apply local_opt, local_visit_expr.
  - apply local_visit_Assign.
  - apply (local_seq (visit_expr test)); [apply local_visit_expr |].
    by apply (local_seq (visit_list (visit_stmt py38) body)).
  - apply local_visit_loop.
    apply (local_seq (visit_expr target)); [apply local_visit_expr |].
    apply (local_seq (visit_expr iter)); [apply local_visit_expr |].
    by apply (local_seq (visit_list (visit_stmt py38) body)).
  - apply local_visit_loop.
    apply (local_seq (visit_expr test)); [apply local_visit_expr |].
    by apply (local_seq (visit_list (visit_stmt py38) body)).
  - apply (local_seq (record_try py38 l e)); [apply local_record_try |].
    apply (local_seq (visit_list (visit_stmt py38) body)); [done |].
    apply (local_seq (visit_list (visit_stmt py38) handlers)); [done |].
    by apply (local_seq (visit_list (visit_stmt py38) orelse)).
  - apply (local_seq (visit_opt visit_expr type));
      [apply local_opt, local_visit_expr | done].
  - apply (local_seq (visit_list visit_expr items));
      [apply local_visit_exprs | done].
  - apply (local_seq (visit_expr test)); [apply local_visit_expr |].
    apply local_opt, local_visit_expr.
  - apply (local_seq (visit_opt visit_expr exc));
      apply local_opt, local_visit_expr.
  - apply (local_seq (visit_list visit_expr exprs));
      [apply local_visit_exprs |].
    apply (local_seq (visit_list (visit_stmt py38) body)); [done |].
    apply local_visit_exprs.
Qed.

(** X16.  What visiting a function definition finds depends on the
    definition and on the loop counter only (which from 3.8 on never
    changes), not on the enclosing scopes nor on the findings made so
    far: from two visitors with the same loop counter the visit raises in
    both or returns in both, having appended the same findings. *)
Theorem function_findings_context_free (py38 : bool) (a : bool)
    (args : list expr) (body : list stmt) (decs : list expr)
    (ret : option expr) (l c : Z) (st1 st2 : Visitor) :
  _loop_count st1 = _loop_count st2 ->
  (forall st1',
     visit_stmt py38 (FunctionDef a args body decs ret l c) st1 = Done st1' ->
     exists new st2',
       errors st1' = errors st1 ++ new /\
       visit_stmt py38 (FunctionDef a args body decs ret l c) st2 = Done st2' /\
       errors st2' = errors st2 ++ new) /\
  (visit_stmt py38 (FunctionDef a args body decs ret l c) st1 = IndexError ->
   visit_stmt py38 (FunctionDef a args body decs ret l c) st2 = IndexError).
Proof.
  intros Hl.
  pose proof (function_def_agrees py38 a args body decs ret l c st1 st2
                (local_list _ _ (list_all_intro _ _ (visit_stmt_local py38)))
                Hl) as H.
  destruct (visit_stmt py38 (FunctionDef a args body decs ret l c) st1)
    as [a1 |],
    (visit_stmt py38 (FunctionDef a args body decs ret l c) st2) as [a2 |];
    try done.
  destruct H as (_ & _ & new & E1 & E2). split; [| done].
  intros st1' [= <-]. by exists new, a2.
Qed.

Lemma function_findings_context_free_witness :
  exists new st2',
    errors (state_of (visit_stmt true assign_then_return initial))
    = errors initial ++ new /\
    visit_stmt true assign_then_return (visitor_at scope_loop_assign)
    = Done st2' /\
    errors st2' = errors (visitor_at scope_loop_assign) ++ new.
Proof.
  apply (proj1 (function_findings_context_free true false []
                  [ Assign [Name "x" 2 4] (Constant COther 2 8) 2 4;
                    Return (ReturnNode (Some (Name "x" 3 11)) 3 4) ]
                  [] None 1 0 initial (visitor_at scope_loop_assign)
                  eq_refl)).
  vm_compute. reflexivity.
Defined.

(** ** The returns a scope gathers *)

Lemma collects_done : collects (fun st => Done st) [].
Proof.
  intros st st' rest sc [= <-] Hst. exists sc. by rewrite app_nil_r.
Qed.

Lemma collects_seq c1 c2 r1 r2 :
  collects c1 r1 -> collects c2 r2 ->
  collects (fun st => st1 <~ c1 st;; c2 st1) (r1 ++ r2).
Proof.
  intros H1 H2 st st' rest sc E Hst.
  destruct (c1 st) as [st1 |] eqn:E1; [| done]. simpl in E.
  destruct (H1 _ _ _ _ E1 Hst) as (sc1 & Hst1 & R1).
  destruct (H2 _ _ _ _ E Hst1) as (sc2 & Hst2 & R2).
  exists sc2. split; [done |]. by rewrite R2, R1, app_assoc.
Qed.

Lemma collects_reads c : reads c -> collects c [].
Proof.
  intros H st st' rest sc E Hst.
  destruct (H st) as (st0 & E0 & _ & _ & _ & Hf).
  rewrite E in E0. injection E0 as <-.
  destruct (Hf rest sc Hst) as (sc' & Hst' & _ & _ & _ & R & _).
  exists sc'. by rewrite R, app_nil_r.
Qed.

Lemma collects_update f rs :
  (forall sc, returns (f sc) = returns sc ++ rs) ->
  collects (update_current f) rs.
Proof.
  intros Hf st st' rest sc E Hst.
  rewrite (update_current_top _ _ _ _ Hst) in E. injection E as <-.
  by exists (f sc).
Qed.

Lemma collects_nil_list {A} (visit : A -> Visitor -> result Visitor) l :
  list_all A (fun x => collects (visit x) []) l ->
  collects (visit_list visit l) [].
Proof.
  induction 1 as [| x Hx l _ IH]; [apply collects_done |].
  exact (collects_seq (visit x) (visit_list visit l) [] [] Hx IH).
Qed.

Lemma collects_stmts py38 (l : list stmt) :
  list_all stmt (fun s => collects (visit_stmt py38 s) (returns_of s)) l ->
  collects (visit_list (visit_stmt py38) l) (flat_map returns_of l).
Proof.
  induction 1 as [| x Hx l _ IH]; [apply collects_done |].
  exact (collects_seq (visit_stmt py38 x) (visit_list (visit_stmt py38) l)
           _ _ Hx IH).
Qed.

Lemma collects_exprs (l : list expr) : collects (visit_list visit_expr l) [].
Proof.
  apply collects_reads, reads_list, list_all_intro, visit_expr_reads.
Qed.

Lemma collects_expr (e : expr) : collects (visit_expr e) [].
Proof. apply collects_reads, visit_expr_reads. Qed.

Lemma collects_opt (o : option expr) : collects (visit_opt visit_expr o) [].
Proof.
  destruct o; [apply collects_expr | apply collects_done].
Qed.

Lemma collects_assign_target py38 (node : expr) :
  collects (_visit_assign_target py38 node) [].
Proof.
  induction node as [id l c | v l c | elts IH l c | children IH l c].
  - intros st st' rest sc. simpl.
    destruct (py38 || (_loop_count st =? 0)).
    + apply (collects_update _ []). intros sc0. simpl. by rewrite app_nil_r.
    + apply collects_done.
  - apply collects_done.
  - by apply collects_nil_list.
  - apply collects_exprs.
Qed.

Lemma collects_Assign py38 targets rhs :
  collects (visit_Assign py38 targets rhs) [].
Proof.
  intros st st' rest sc E Hst. unfold visit_Assign in E.
  pose proof (stack_nonempty_top _ _ _ Hst) as Hne.
  rewrite Hne in E. simpl in E.
  destruct (assigned_value_reads rhs st Hne) as (st2 & E2 & R2).
  destruct (match rhs with
            | Name id l _ => append_ref id l st
            | _ => Done st
            end) as [st1 |]; simpl in E2; [| done].
  simpl in E. rewrite E2 in E. simpl in E.
  destruct R2 as (_ & _ & _ & Hf).
  destruct (Hf rest sc Hst) as (sc2 & Hst2 & _ & _ & _ & Hr2 & _).
  destruct targets as [| target ts]; [done |].
  assert (forall st3, _visit_assign_target py38 target st2 = Done st3 ->
            exists sc', _stack st3 = rest ++ [sc'] /\
                        returns sc' = returns sc ++ []) as Ht.
  { intros st3 E3.
    destruct (collects_assign_target py38 target _ _ _ _ E3 Hst2)
      as (sc3 & Hst3 & Hr3).
    exists sc3. split; [done |]. by rewrite Hr3, Hr2. }
  assert (exists sc', _stack st2 = rest ++ [sc'] /\
                      returns sc' = returns sc ++ []) as Hskip
    by (exists sc2; by rewrite Hr2, app_nil_r).
  destruct target; destruct rhs;
    first [by apply Ht | injection E as <-; exact Hskip].
Qed.

Lemma collects_loop py38 l e c rs :
  collects c rs -> collects (_visit_loop py38 l e c) rs.
Proof.
  intros Hc. unfold _visit_loop. destruct py38.
  - apply (collects_seq (record_loop l e) c []); [| done].
    intros st st' rest sc. unfold record_loop.
    destruct (stack_nonempty st); [| apply collects_done].
    destruct e; [| apply collects_done].
    apply (collects_update _ []). intros sc0. simpl. by rewrite app_nil_r.
  - intros st st' rest sc E Hst.
    destruct (c (set_loop_count (_loop_count st + 1) st)) as [st1 |] eqn:E1;
      [| done].
    simpl in E. injection E as <-.
    exact (Hc _ _ rest sc E1 Hst).
Qed.

Lemma collects_record_try py38 l e : collects (record_try py38 l e) [].
Proof.
  intros st st' rest sc. unfold record_try.
  destruct py38; [| apply collects_done].
  destruct (stack_nonempty st); [| apply collects_done].
  destruct e; [| apply collects_done].
  apply (collects_update _ []). intros sc0. simpl. by rewrite app_nil_r.
Qed.

Lemma visit_stmt_collects py38 (s : stmt) :
  collects (visit_stmt py38 s) (returns_of s).
Proof.
  induction s as
    [a args body Hb decs ret l c | r | targets rhs l c
    | test body Hb orelse Ho l c | a target iter body Hb orelse Ho l c e
    | test body Hb orelse Ho l c e | body Hb handlers Hh orelse Ho fin Hf l c e
    | type body Hb l c | a items body Hb l c | test msg l c | exc cause l c
    | exprs body Hb exprs' l c ];
    repeat match goal with
           | H : list_all stmt _ _ |- _ => apply collects_stmts in H
           end.
  - intros st st' rest sc E Hst.
    destruct (visit_FunctionDef_run _ _ _ _ _ _ _ _ _ _
                (visit_stmts_behaves py38 body) E)
      as (st4 & sc4 & inner & own & _ & _ & _ & _ & _ & ->).
    exists sc. simpl. by rewrite app_nil_r.
  - apply (collects_seq (append_return r) _ [r] []);
      [by apply collects_update | apply collects_opt].
  - apply collects_Assign.
  - exact (collects_seq _ _ [] _ (collects_expr test)
             (collects_seq _ _ _ _ Hb Ho)).
  - apply collects_loop.
    exact (collects_seq _ _ [] _ (collects_expr target)
             (collects_seq _ _ [] _ (collects_expr iter)
                (collects_seq _ _ _ _ Hb Ho))).
  - apply collects_loop.
    exact (collects_seq _ _ [] _ (collects_expr test)
             (collects_seq _ _ _ _ Hb Ho)).
  - exact (collects_seq _ _ [] _ (collects_record_try py38 l e)
             (collects_seq _ _ _ _ Hb
                (collects_seq _ _ _ _ Hh (collects_seq _ _ _ _ Ho Hf)))).
  - exact (collects_seq _ _ [] _ (collects_opt type) Hb).
  - exact (collects_seq _ _ [] _ (collects_exprs items) Hb).
  - exact (collects_seq _ _ [] [] (collects_expr test) (collects_opt msg)).
  - exact (collects_seq _ _ [] [] (collects_opt exc) (collects_opt cause)).
  - simpl. rewrite <- (app_nil_r (flat_map returns_of body)).
    exact (collects_seq _ _ [] _ (collects_exprs exprs)
             (collects_seq _ _ _ [] Hb (collects_exprs exprs'))).
Qed.

Lemma walk_collects py38 args body decs ret st st4 :
  walk_function py38 args body decs ret st = Done st4 ->
  exists sc,
    _stack st4 = _stack st ++ [sc] /\ returns sc = flat_map returns_of body.
Proof.
  intros E.
  pose proof (collects_seq _ _ [] _ (collects_exprs args)
    (collects_seq _ _ _ _
       (collects_stmts py38 body
          (list_all_intro _ _ (visit_stmt_collects py38)))
       (collects_seq _ _ [] [] (collects_exprs decs) (collects_opt ret))))
    as H.
  destruct (H (push st) st4 (_stack st) empty_scope E eq_refl)
    as (sc & Hst & Hr).
  exists sc. split; [done |]. rewrite Hr. simpl. by rewrite app_nil_r.
Qed.

(** X17.  The returns that a function's checks read are exactly the
    [Return] nodes of its body in source order, those inside nested
    function definitions left out: a [Return] belongs to the nearest
    enclosing function. *)
Theorem returns_collected (py38 : bool) (args : list expr) (body : list stmt)
    (decs : list expr) (ret : option expr) (st st4 : Visitor) :
  walk_function py38 args body decs ret st = Done st4 ->
  exists sc,
    _stack st4 = _stack st ++ [sc] /\ returns sc = flat_map returns_of body.
Proof. apply walk_collects. Qed.

Lemma returns_collected_witness :
  let st4 := state_of (walk_function true []
                         [ mixed_returns; if_with_else ] [] None initial) in
  exists sc,
    _stack st4 = _stack initial ++ [sc] /\
    returns sc = [ ReturnNode (Some (Constant COther 3 15)) 3 8;
                   ReturnNode (Some (Constant COther 5 15)) 5 8 ].
Proof.
  intros st4.
  apply (returns_collected true [] [mixed_returns; if_with_else] [] None
           initial).
  vm_compute. reflexivity.
Defined.

(** ** A function definition, from its syntax *)


